(** * wunderflat-explorer: the crawler and its driver

    A shallow embedding of [python_version/crawler.py] and
    [python_version/main.py].

    - Python [str] values are sequences of Unicode code points ([list N]).
    - The page returned by [BeautifulSoup(...)] is a tree of tags, text
      strings and comments; [find], [find_all] and [.text] are the
      document-order searches of bs4.
    - [requests.get], [Response.raise_for_status], the HTML parser, [urljoin]
      and the opening of the output file belong to the platform: they are the
      fields of the class [Platform], and every function of the two modules
      is defined over an arbitrary instance of it.
    - The network and the file system are a state of type [W] threaded
      through every call.
    - [print] and [time.sleep] change neither a returned value nor the control
      flow; they are left out. *)

From Stdlib Require Import List NArith ZArith Bool Lia String Ascii.
From Stdlib Require Import DecimalString DecimalN.
Import ListNotations.

Set Implicit Arguments.
Set Warnings "-register-all".

(** ** Python strings *)

Module PyStr.

Local Open Scope N_scope.

Definition str := list N.

(** An ASCII literal of the source as a [str]. *)
Definition lit (s : string) : str :=
  map N_of_ascii (list_ascii_of_string s).

Fixpoint eqb (a b : str) : bool :=
  match a, b with
  | [], [] => true
  | x :: a', y :: b' => N.eqb x y && eqb a' b'
  | _, _ => false
  end.

(** [x in l] for a list of strings. *)
Definition mem (x : str) (l : list str) : bool := existsb (eqb x) l.

(** [str.isspace] on one code point (CPython's [_PyUnicode_IsWhitespace]). *)
Definition isspace (c : N) : bool :=
  ((9 <=? c) && (c <=? 13)) || ((28 <=? c) && (c <=? 32))
  || (c =? 133) || (c =? 160) || (c =? 5760)
  || ((8192 <=? c) && (c <=? 8202))
  || (c =? 8232) || (c =? 8233) || (c =? 8239) || (c =? 8287)
  || (c =? 12288).

Fixpoint lstrip (s : str) : str :=
  match s with
  | [] => []
  | c :: r => if isspace c then lstrip r else s
  end.

Fixpoint rstrip (s : str) : str :=
  match s with
  | [] => []
  | c :: r =>
      match rstrip r with
      | [] => if isspace c then [] else [c]
      | r' => c :: r'
      end
  end.

(** [s.strip()] *)
Definition strip (s : str) : str := rstrip (lstrip s).

(** [s.startswith(prefix)] *)
Fixpoint startswith (prefix s : str) : bool :=
  match prefix, s with
  | [], _ => true
  | p :: prefix', c :: s' => N.eqb p c && startswith prefix' s'
  | _ :: _, [] => false
  end.

(** [needle in hay] *)
Fixpoint contains (needle hay : str) : bool :=
  startswith needle hay
  || match hay with
     | [] => false
     | _ :: hay' => contains needle hay'
     end.

(** [s.split(sep)] for a separator of one character: never empty. *)
Fixpoint split (sep : N) (s : str) : list str :=
  match s with
  | [] => [[]]
  | c :: r =>
      if N.eqb c sep then [] :: split sep r
      else match split sep r with
           | h :: t => (c :: h) :: t
           | [] => [[c]]
           end
  end.

(** [str(n)] for a non-negative integer. *)
Definition of_N (n : N) : str :=
  lit (NilEmpty.string_of_uint (N.to_uint n)).

(** The part of [s] before its first [sep] (all of [s] without one). *)
Fixpoint before (sep : N) (s : str) : str :=
  match s with
  | [] => []
  | c :: r => if N.eqb c sep then [] else c :: before sep r
  end.

End PyStr.

Import PyStr.

Definition comma : N := 44%N.
Definition space : N := 32%N.

(** ** The parsed page (bs4) *)

(** A [Tag] carries its name, the list bs4 keeps for the multi-valued
    [class] attribute, the other attributes and its children. *)
Inductive node : Type :=
| NavigableString (s : str)
| Comment (s : str)
| Tag (name : str) (class_ : list str) (attrs : list (str * str))
      (contents : list node).

(** [tag.descendants]: every node below [n], in document order. *)
Fixpoint descendants (n : node) : list node :=
  match n with
  | Tag _ _ _ contents => flat_map (fun c => c :: descendants c) contents
  | _ => []
  end.

(** [tag.text]: the text strings below [n], concatenated; comments are
    not text. *)
Definition own_text (n : node) : str :=
  match n with
  | NavigableString s => s
  | _ => []
  end.

Definition text (n : node) : str := flat_map own_text (descendants n).

(** [tag[key]] and [tag.get(key)]. *)
Fixpoint lookup (key : str) (d : list (str * str)) : option str :=
  match d with
  | [] => None
  | (k, v) :: d' => if eqb k key then Some v else lookup key d'
  end.

Definition get_attr (key : str) (n : node) : option str :=
  match n with
  | Tag _ _ attrs _ => lookup key attrs
  | _ => None
  end.

(** [" ".join(l)] *)
Fixpoint join_space (l : list str) : str :=
  match l with
  | [] => []
  | [x] => x
  | x :: l' => x ++ space :: join_space l'
  end.

(** The keyword filters the two modules pass to [find] and [find_all]. *)
Inductive attr_filter : Type :=
| class_is (c : str)          (* class_="c" *)
| attr_is (key value : str)   (* attrs={"key": "value"} *)
| attr_present (key : str).   (* key=True *)

(** bs4 matches [class_="c"] against each class of the tag and against
    the classes joined by single spaces. *)
Definition match_filter (f : attr_filter) (n : node) : bool :=
  match n with
  | Tag _ class_ attrs _ =>
      match f with
      | class_is c => mem c class_ || eqb c (join_space class_)
      | attr_is key value =>
          match lookup key attrs with
          | Some v => eqb v value
          | None => false
          end
      | attr_present key =>
          match lookup key attrs with
          | Some _ => true
          | None => false
          end
      end
  | _ => false
  end.

Definition matches (name : str) (fs : list attr_filter) (n : node) : bool :=
  match n with
  | Tag name' _ _ _ => eqb name' name && forallb (fun f => match_filter f n) fs
  | _ => false
  end.

(** [n.find_all(name, ...)] and [n.find(name, ...)]. *)
Definition find_all (name : str) (fs : list attr_filter) (n : node)
  : list node :=
  filter (matches name fs) (descendants n).

Definition find (name : str) (fs : list attr_filter) (n : node)
  : option node :=
  hd_error (find_all name fs n).

(** [tag.contents]: the children of a tag. *)
Definition contents (n : node) : list node :=
  match n with
  | Tag _ _ _ c => c
  | _ => []
  end.

(** ** Dictionaries that keep the order of insertion *)

Definition dict := list (str * str).

(** [d[key] = value]: an existing key keeps its place. *)
Fixpoint setitem (key value : str) (d : dict) : dict :=
  match d with
  | [] => [(key, value)]
  | (k, v) :: d' =>
      if eqb k key then (k, value) :: d' else (k, v) :: setitem key value d'
  end.

Definition keys (d : dict) : list str := map fst d.

(** Truth value of a dictionary. *)
Definition nonempty (d : dict) : bool :=
  match d with
  | [] => false
  | _ :: _ => true
  end.

(** ** The platform *)

(** The exceptions the two modules tell apart: the subclasses of
    [requests.exceptions.RequestException] and every other [Exception]. *)
Inductive exn : Type :=
| ConnectionError (msg : str)
| Timeout (msg : str)
| HTTPError (status_code : Z)
| OtherRequestException (msg : str)
| KeyError (key : str)
| ValueError (msg : str)
| IOError (msg : str)
| OtherException (msg : str).

Definition is_RequestException (e : exn) : bool :=
  match e with
  | ConnectionError _ | Timeout _ | HTTPError _ | OtherRequestException _ =>
      true
  | _ => false
  end.

Record Response : Type := { status_code : Z; response_text : str }.

Class Platform : Type := {
  (** the state of the network and of the file system *)
  W : Type;
  (** [requests.get(url, timeout=10, headers=...)] *)
  requests_get : str -> W -> (exn + Response) * W;
  (** [response.raise_for_status()]: the exception it raises, if any *)
  raise_for_status : Response -> option exn;
  (** [BeautifulSoup(text, "html.parser")] *)
  BeautifulSoup : str -> exn + node;
  (** [urllib.parse.urljoin(base, url)] *)
  urljoin : str -> str -> str;
  (** [open(filename, "w", ...)]: the exception it raises, if any *)
  open_w : str -> W -> option exn * W
}.

(** Computations that read and change the world and may raise. *)
Definition M `{Platform} (A : Type) : Type := W -> (exn + A) * W.

Definition ret `{Platform} {A} (a : A) : M A := fun w => (inr a, w).

Definition raise `{Platform} {A} (e : exn) : M A := fun w => (inl e, w).

Definition bind `{Platform} {A B} (m : M A) (k : A -> M B) : M B :=
  fun w =>
    match m w with
    | (inl e, w') => (inl e, w')
    | (inr a, w') => k a w'
    end.

Definition lift `{Platform} {A} (r : exn + A) : M A := fun w => (r, w).

Declare Scope py_scope.
Delimit Scope py_scope with py.
Notation "x <- m ;; k" := (bind m (fun x => k))
  (at level 61, m at next level, right associativity) : py_scope.
Notation "m ;;; k" := (bind m (fun _ => k))
  (at level 61, right associativity) : py_scope.

Local Open Scope py_scope.

(** ** crawler.py *)

Section Crawler.

Context `{P : Platform}.

(** The two statements that open both [try] blocks:
    [response = requests.get(...)] and [response.raise_for_status()]. *)
Definition fetch (url : str) : M Response :=
  response <- requests_get url ;;
  match raise_for_status response with
  | Some e => raise e
  | None => ret response
  end.

Definition listing_prefix : str := lit "/en/furnished-apartment/".

(** The [for link in listing_links] loop of [crawl]: the list it has
    built, and the exception that stopped it, if any. *)
Fixpoint collect_links (url : str) (listing_links : list node)
         (apartment_links : list str) : option exn * list str :=
  match listing_links with
  | [] => (None, apartment_links)
  | link :: rest =>
      match get_attr (lit "href") link with
      | None => (Some (KeyError (lit "href")), apartment_links)
      | Some href =>
          if startswith listing_prefix href then
            let full_url := urljoin url href in
            if mem full_url apartment_links
            then collect_links url rest apartment_links
            else collect_links url rest (apartment_links ++ [full_url])
          else collect_links url rest apartment_links
      end
  end.

(** [crawl(url)].  Both [except] clauses only print, and the list built
    so far is returned whatever happened. *)
Definition crawl (url : str) : W -> list str * W :=
  fun w =>
    let apartment_links := [] in
    match (response <- fetch url ;;
           soup <- lift (BeautifulSoup (response_text response)) ;;
           ret (find_all (lit "a") [attr_present (lit "href")] soup)) w
    with
    | (inr listing_links, w') =>
        (snd (collect_links url listing_links apartment_links), w')
    | (inl e, w') =>
        if is_RequestException e then (apartment_links, w')
        else (apartment_links, w')
    end.

Definition not_found : str := lit "Not Found".
Definition not_implemented : str := lit "Not implemented".
Definition description_not_found : str :=
  lit "Description section not found (using generic selector)".

(** The dictionary [details] as [extract_apartment_details] creates it. *)
Definition initial_details (url : str) : dict :=
  [ (lit "url", url);
    (lit "title", not_found);
    (lit "price", not_found);
    (lit "size", not_found);
    (lit "rooms", not_found);
    (lit "address", not_found);
    (lit "description", not_found);
    (lit "availability", not_implemented) ].

(** Title (h2 with specific class) *)
Definition extract_title (soup : node) (details : dict) : dict :=
  match find (lit "h2") [class_is (lit "ListingDetails-title")] soup with
  | Some title_tag => setitem (lit "title") (strip (text title_tag)) details
  | None => details
  end.

(** Address (span with data-testid), else the first span of the
    [ListingDetails-basic] block *)
Definition extract_address (soup : node) (details : dict) : dict :=
  match find (lit "span")
             [attr_is (lit "data-testid") (lit "ListingDetailsPage-address")]
             soup with
  | Some address_tag =>
      setitem (lit "address") (strip (text address_tag)) details
  | None =>
      match find (lit "div") [class_is (lit "ListingDetails-basic")] soup with
      | Some basic_div =>
          match find (lit "span") [] basic_div with
          | Some span =>
              setitem (lit "address")
                      (strip (text span) ++ lit " (fallback)") details
          | None => details
          end
      | None => details
      end
  end.

(** Size (within stats) *)
Definition extract_size (stats_container : node) (details : dict) : dict :=
  match find (lit "span") [class_is (lit "ListingDetails-statsElt floor")]
             stats_container with
  | Some size_span =>
      match find (lit "span") [] size_span with
      | Some inner =>
          match split comma (strip (text inner)) with
          | part :: _ => setitem (lit "size") (strip part) details
          | [] => details
          end
      | None => details
      end
  | None => details
  end.

(** Rooms (within stats) *)
Definition extract_rooms (stats_container : node) (details : dict) : dict :=
  match find (lit "span") [class_is (lit "ListingDetails-statsElt rooms")]
             stats_container with
  | Some rooms_span =>
      match find (lit "span") [] rooms_span with
      | Some inner => setitem (lit "rooms") (strip (text inner)) details
      | None => details
      end
  | None => details
  end.

(** Stats Container *)
Definition extract_stats (soup : node) (details : dict) : dict :=
  match find (lit "div") [class_is (lit "ListingDetails-stats")] soup with
  | Some stats_container =>
      extract_rooms stats_container (extract_size stats_container details)
  | None => details
  end.

(** Price *)
Definition extract_price (soup : node) (details : dict) : dict :=
  match find (lit "div") [class_is (lit "ListingPriceText__wrapper")] soup
  with
  | Some price_wrapper =>
      let price_value_tag :=
        find (lit "strong") [class_is (lit "ListingPriceText__value")]
             price_wrapper in
      let price_unit_tag := find (lit "span") [] price_wrapper in
      match price_value_tag, price_unit_tag with
      | Some value, Some unit_ =>
          if contains (lit "per month") (text unit_) then
            setitem (lit "price")
                    (strip (text value) ++ space :: strip (text unit_))
                    details
          else setitem (lit "price") (strip (text value)) details
      | Some value, None =>
          setitem (lit "price") (strip (text value)) details
      | None, _ => details
      end
  | None => details
  end.

(** Description *)
Definition extract_description (soup : node) (details : dict) : dict :=
  match find (lit "div") [class_is (lit "description")] soup with
  | Some desc_tag =>
      setitem (lit "description") (strip (text desc_tag)) details
  | None => setitem (lit "description") description_not_found details
  end.

(** The statements of the [try] block that follow the parsing, in the
    order of the source. *)
Definition extract_fields (soup : node) (details : dict) : dict :=
  let details := extract_title soup details in
  let details := extract_address soup details in
  let details := extract_stats soup details in
  let details := extract_price soup details in
  extract_description soup details.

(** [extract_apartment_details(url)].  Both [except] clauses only print,
    and [details] is returned whatever happened. *)
Definition extract_apartment_details (url : str) : W -> dict * W :=
  fun w =>
    let details := initial_details url in
    match (response <- fetch url ;;
           lift (BeautifulSoup (response_text response))) w
    with
    | (inr soup, w') => (extract_fields soup details, w')
    | (inl e, w') =>
        if is_RequestException e then (details, w') else (details, w')
    end.

(** What the [try] block of either function has in [soup] once the page
    is parsed, or the exception that ends the block before that. *)
Definition load (url : str) : M node :=
  response <- fetch url ;;
  lift (BeautifulSoup (response_text response)).

Definition page_of (url : str) (w : W) : exn + node := fst (load url w).

(** The [href] of every anchor [crawl] looks at, in document order. *)
Definition anchor_hrefs (soup : node) : list str :=
  flat_map (fun link => match get_attr (lit "href") link with
                        | Some href => [href]
                        | None => []
                        end)
           (find_all (lit "a") [attr_present (lit "href")] soup).

(** The absolute URLs of the listing anchors of a page, one entry for
    each anchor. *)
Definition resolved (url : str) (soup : node) : list str :=
  map (urljoin url) (filter (startswith listing_prefix) (anchor_hrefs soup)).

(** What one turn of the loop of [crawl] does with a resolved URL. *)
Definition add_unique (apartment_links : list str) (full_url : str)
  : list str :=
  if mem full_url apartment_links then apartment_links
  else apartment_links ++ [full_url].

Definition fieldnames : list str :=
  map lit ["url"; "title"; "price"; "size"; "rooms"; "address";
           "description"; "availability"]%string.

End Crawler.

(** ** main.py *)

Section Driver.

Context `{P : Platform}.

(** [base_url_template.format(page_num=page_number)] *)
Definition base_url_head : str :=
  lit "https://wunderflats.com/en/furnished-apartments/berlin/".

Definition base_url_tail : str :=
  lit "?from=2025-07-01&to=2025-09-30&flexibleDays=14&scoreVariant=B"
  ++ lit "&minRooms=3&homeType=ENTIRE_APARTMENT&minSize=60".

Definition page_url (page_number : N) : str :=
  base_url_head ++ of_N page_number ++ base_url_tail.

(** The variables of the [while] loop. *)
Record driver_state : Type := {
  page_number : N;
  all_apartment_details : list dict
}.

Definition initial_state : driver_state :=
  {| page_number := 1; all_apartment_details := [] |}.

(** [for link in apartment_links: ...] *)
Fixpoint extract_all (apartment_links : list str) (acc : list dict)
  : W -> list dict * W :=
  fun w =>
    match apartment_links with
    | [] => (acc, w)
    | link :: rest =>
        let (details, w') := extract_apartment_details link w in
        extract_all rest
                    (if nonempty details then acc ++ [details] else acc) w'
    end.

(** One pass through the body of [while True]: [None] is [break]. *)
Definition iteration (st : driver_state) : W -> option driver_state * W :=
  fun w =>
    let (apartment_links, w1) := crawl (page_url (page_number st)) w in
    match apartment_links with
    | [] => (None, w1)
    | _ :: _ =>
        let (acc, w2) :=
          extract_all apartment_links (all_apartment_details st) w1 in
        (Some {| page_number := page_number st + 1;
                 all_apartment_details := acc |}, w2)
    end.

(** [while True]: [None] when [fuel] passes do not reach the [break]. *)
Fixpoint while_true (fuel : nat) (st : driver_state) (w : W)
  : option (driver_state * W) :=
  match fuel with
  | O => None
  | S fuel' =>
      match iteration st w with
      | (None, w') => Some (st, w')
      | (Some st', w') => while_true fuel' st' w'
      end
  end.

(** The variables and the world at the start of pass [i] (counted from
    0), when the loop gets that far. *)
Fixpoint reach (i : nat) (st : driver_state) (w : W)
  : option (driver_state * W) :=
  match i with
  | O => Some (st, w)
  | S i' =>
      match iteration st w with
      | (None, _) => None
      | (Some st', w') => reach i' st' w'
      end
  end.

(** *** Save to CSV *)

Definition csv_filename : str := lit "wunderflats_berlin.csv".

Definition row := list str.

(** [DictWriter._dict_to_list]: a key outside [fieldnames] is an error, a
    missing one is written as the empty string. *)
Definition dict_to_list (fieldnames : list str) (rowdict : dict)
  : exn + row :=
  if forallb (fun k => mem k fieldnames) (keys rowdict) then
    inr (map (fun key => match lookup key rowdict with
                         | Some v => v
                         | None => []
                         end) fieldnames)
  else inl (ValueError (lit "dict contains fields not in fieldnames")).

(** [writer.writerows(rowdicts)] on a file that holds [file]. *)
Fixpoint writerows (fieldnames : list str) (rowdicts : list dict)
         (file : list row) : option exn * list row :=
  match rowdicts with
  | [] => (None, file)
  | d :: rest =>
      match dict_to_list fieldnames d with
      | inl e => (Some e, file)
      | inr r => writerows fieldnames rest (file ++ [r])
      end
  end.

(** The rows of [wunderflats_berlin.csv] as this run leaves it, [None]
    when it does not create the file. *)
Definition save_to_csv (records : list dict) : W -> option (list row) * W :=
  fun w =>
    match records with
    | [] => (None, w)
    | first :: _ =>
        let headers := keys first in
        match open_w csv_filename w with
        | (Some e, w') => (None, w')
        | (None, w') =>
            (* writer.writeheader(); writer.writerows(...) *)
            (Some (snd (writerows headers records [headers])), w')
        end
    end.

(** The script: the records collected and the file written. *)
Definition main (fuel : nat) (w : W)
  : option (list dict * option (list row) * W) :=
  match while_true fuel initial_state w with
  | None => None
  | Some (st, w') =>
      let (file, w'') := save_to_csv (all_apartment_details st) w' in
      Some (all_apartment_details st, file, w'')
  end.

End Driver.

(** ** A small site to run the functions on *)

Module Site.

Local Open Scope string_scope.

(** Tags as they are written in a page. *)
Definition elt (name : string) (classes : list string)
           (attrs : list (string * string)) (contents : list node) : node :=
  Tag (lit name) (map lit classes)
      (map (fun kv => (lit (fst kv), lit (snd kv))) attrs) contents.

Definition txt (s : string) : node := NavigableString (lit s).

Definition a (href : string) (label : string) : node :=
  elt "a" [] [("href", href)] [txt label].

(** [scheme://authority] of an absolute URL: everything before the
    third slash. *)
Fixpoint origin (slashes : nat) (url : str) : str :=
  match url with
  | [] => []
  | c :: r =>
      if N.eqb c 47 then
        match slashes with
        | O => []
        | S k => (c :: origin k r)%list
        end
      else (c :: origin slashes r)%list
  end.

(** URL join for the only references [crawl] resolves, absolute paths
    (RFC 3986, 5.2.2, for a path free of dot segments): the origin of the
    base followed by the reference. *)
Definition join (base ref : str) : str :=
  if startswith (lit "/") ref then (origin 2 base ++ ref)%list else ref.

(** The script's first two result pages and three listings. *)
Definition results_page_1 : node :=
  elt "[document]" [] []
    [ elt "div" ["results"] []
        [ a "/en/furnished-apartment/a" "A";
          a "/en/about" "About";
          a "/en/furnished-apartment/b" "B";
          elt "a" [] [] [txt "no href"];
          a "/en/furnished-apartment/a" "A again";
          a "/en/furnished-apartment/c" "C" ] ].

Definition results_page_2 : node :=
  elt "[document]" [] [] [ a "/en/about" "About" ].

Definition sq_metre : str := (lit "98 m" ++ [178%N])%list.

Definition listing_a : node :=
  elt "[document]" [] []
    [ elt "h2" ["ListingDetails-title"] [] [txt "  Bright flat "];
      elt "span" [] [("data-testid", "ListingDetailsPage-address")]
          [txt "Kreuzberg, Berlin"];
      elt "div" ["ListingDetails-stats"] []
          [ elt "span" ["ListingDetails-statsElt"; "floor"] []
                [ elt "span" [] []
                      [NavigableString (sq_metre ++ lit ", floor 2")%list] ];
            elt "span" ["ListingDetails-statsElt"; "rooms"] []
                [ elt "span" [] [] [txt "3 rooms"] ] ];
      elt "div" ["ListingPriceText__wrapper"] []
          [ elt "strong" ["ListingPriceText__value"] [] [txt " 1200 EUR "];
            elt "span" [] [] [txt " per month "] ];
      elt "div" ["description"] [] [txt "Two balconies."] ].

(** A listing whose price block opens with another span. *)
Definition value_c : node :=
  elt "strong" ["ListingPriceText__value"] [] [txt "1200 EUR"].

Definition unit_c : node := elt "span" [] [] [txt "per month"].

Definition wrapper_c : node :=
  elt "div" ["ListingPriceText__wrapper"] []
      [ elt "span" [] [] [txt "from"]; value_c; unit_c ].

Definition listing_c : node := elt "[document]" [] [] [ wrapper_c ].

(** A page without any of the patterns looked for. *)
Definition bare_page : node :=
  elt "[document]" [] [] [ elt "p" [] [] [txt "Nothing here"] ].

Definition url_a : str := lit "https://wunderflats.com/en/furnished-apartment/a".
Definition url_b : str := lit "https://wunderflats.com/en/furnished-apartment/b".
Definition url_c : str := lit "https://wunderflats.com/en/furnished-apartment/c".
Definition url_bare : str := lit "https://wunderflats.com/en/bare".
Definition url_down : str := lit "https://wunderflats.com/en/down".

(** The bodies served are named, and the parser is given by its table. *)
Definition ok (body : string) : exn + Response :=
  inr {| status_code := 200; response_text := lit body |}.

Definition serve (page_1 : str) (url : str) : exn + Response :=
  if eqb url page_1 then ok "results 1"
  else if eqb url url_a then ok "listing a"
  else if eqb url url_b then
    inr {| status_code := 404; response_text := lit "listing a" |}
  else if eqb url url_c then ok "listing c"
  else if eqb url url_bare then ok "bare"
  else if eqb url url_down then inl (Timeout (lit "timed out"))
  else ok "results 2".

Definition parse (body : str) : exn + node :=
  if eqb body (lit "results 1") then inr results_page_1
  else if eqb body (lit "results 2") then inr results_page_2
  else if eqb body (lit "listing a") then inr listing_a
  else if eqb body (lit "listing c") then inr listing_c
  else if eqb body (lit "bare") then inr bare_page
  else inl (OtherException (lit "cannot parse")).

(** [raise_for_status] of the requests library. *)
Definition bad_status (r : Response) : option exn :=
  if ((400 <=? status_code r) && (status_code r <? 600))%Z
  then Some (HTTPError (status_code r)) else None.

Definition first_page : str :=
  (lit "https://wunderflats.com/en/furnished-apartments/berlin/1"
   ++ lit "?from=2025-07-01&to=2025-09-30&flexibleDays=14&scoreVariant=B"
   ++ lit "&minRooms=3&homeType=ENTIRE_APARTMENT&minSize=60")%list.

(** The world is the list of the URLs requested so far, latest first. *)
Definition platform : Platform :=
  {| W := list str;
     requests_get := fun url w => (serve first_page url, url :: w);
     raise_for_status := bad_status;
     BeautifulSoup := parse;
     urljoin := join;
     open_w := fun _ w => (None, w) |}.

(** The same site with a disk that cannot be written. *)
Definition read_only_platform : Platform :=
  {| W := list str;
     requests_get := fun url w => (serve first_page url, url :: w);
     raise_for_status := bad_status;
     BeautifulSoup := parse;
     urljoin := join;
     open_w := fun _ w => (Some (IOError (lit "read-only")), w) |}.

(** The same site when the network is down. *)
Definition offline_platform : Platform :=
  {| W := list str;
     requests_get := fun url w =>
       (inl (ConnectionError (lit "unreachable")), url :: w);
     raise_for_status := bad_status;
     BeautifulSoup := parse;
     urljoin := join;
     open_w := fun _ w => (None, w) |}.

(** A site on which every result page lists a flat. *)
Definition endless_platform : Platform :=
  {| W := list str;
     requests_get := fun url w =>
       (if eqb url url_a then ok "listing a" else ok "results 1", url :: w);
     raise_for_status := bad_status;
     BeautifulSoup := parse;
     urljoin := join;
     open_w := fun _ w => (None, w) |}.

(** The run of the driver on [platform]. *)
Definition final_state : driver_state :=
  Eval vm_compute in
    match @while_true platform 5 initial_state [] with
    | Some (st, _) => st
    | None => initial_state
    end.

Definition final_world : list str :=
  Eval vm_compute in
    match @while_true platform 5 initial_state [] with
    | Some (_, w) => w
    | None => []
    end.

Definition inner_a : node :=
  elt "span" [] [] [NavigableString (sq_metre ++ lit ", floor 2")%list].

Definition size_span_a : node :=
  elt "span" ["ListingDetails-statsElt"; "floor"] [] [inner_a].

Definition stats_a : node :=
  elt "div" ["ListingDetails-stats"] []
      [ size_span_a;
        elt "span" ["ListingDetails-statsElt"; "rooms"] []
            [ elt "span" [] [] [txt "3 rooms"] ] ].

Definition value_a : node :=
  elt "strong" ["ListingPriceText__value"] [] [txt " 1200 EUR "].

Definition unit_a : node := elt "span" [] [] [txt " per month "].

Definition wrapper_a : node :=
  elt "div" ["ListingPriceText__wrapper"] [] [value_a; unit_a].

(** A site that serves one page, whatever the URL. *)
Definition page_platform (soup : node) : Platform :=
  {| W := list str;
     requests_get := fun url w => (ok "page", url :: w);
     raise_for_status := bad_status;
     BeautifulSoup := fun _ => inr soup;
     urljoin := join;
     open_w := fun _ w => (None, w) |}.

(** A site whose pages the parser rejects. *)
Definition unparsable_platform : Platform :=
  {| W := list str;
     requests_get := fun url w => (ok "page", url :: w);
     raise_for_status := bad_status;
     BeautifulSoup := fun _ => inl (OtherException (lit "cannot parse"));
     urljoin := join;
     open_w := fun _ w => (None, w) |}.

(** A listing without the address element: the address is in the first
    span of the [ListingDetails-basic] block.  Its size element stands
    outside any stats container. *)
Definition basic_span_d : node := elt "span" [] [] [txt " Mitte, Berlin "].

Definition basic_d : node :=
  elt "div" ["ListingDetails-basic"] []
      [ elt "h2" ["ListingDetails-title"] [] [txt " Loft "];
        basic_span_d;
        elt "span" [] [] [txt "second span"] ].

Definition desc_d : node := elt "div" ["description"] [] [txt " Quiet. "].

Definition listing_d : node :=
  elt "[document]" [] []
      [ basic_d;
        elt "span" ["ListingDetails-statsElt"; "floor"] []
            [ elt "span" [] [] [txt "70 m2, floor 1"] ];
        desc_d ].

Definition url_d : str := lit "https://wunderflats.com/en/furnished-apartment/d".

Definition rooms_inner_a : node := elt "span" [] [] [txt "3 rooms"].

Definition rooms_span_a : node :=
  elt "span" ["ListingDetails-statsElt"; "rooms"] [] [rooms_inner_a].

(** A loop that starts with a record already collected. *)
Definition start_with_record : driver_state :=
  {| page_number := 1;
     all_apartment_details := [initial_details url_down] |}.

Definition after_pass : driver_state :=
  Eval vm_compute in
    match @reach platform 1 start_with_record [] with
    | Some (st, _) => st
    | None => start_with_record
    end.

Definition after_pass_world : list str :=
  Eval vm_compute in
    match @reach platform 1 start_with_record [] with
    | Some (_, w) => w
    | None => []
    end.

End Site.


(** * Properties *)

Unset Implicit Arguments.

(** ** Strings *)

Section StringFacts.

Lemma eqb_eq (a b : str) : eqb a b = true <-> a = b.
Proof.
  revert b; induction a as [|x a IH]; intros [|y b]; simpl;
    try (split; [discriminate | discriminate]); try tauto.
  rewrite andb_true_iff, N.eqb_eq, IH.
  split; [intros [-> ->]; reflexivity | intros H; inversion H; auto].
Qed.

Lemma eqb_refl (a : str) : eqb a a = true.
Proof. apply eqb_eq; reflexivity. Qed.

Lemma eqb_neq (a b : str) : eqb a b = false <-> a <> b.
Proof.
  rewrite <- eqb_eq. destruct (eqb a b); split; congruence.
Qed.

Lemma str_eq_dec (a b : str) : {a = b} + {a <> b}.
Proof.
  destruct (eqb a b) eqn:E; [left; apply eqb_eq | right; apply eqb_neq];
    exact E.
Defined.

Lemma mem_In (x : str) (l : list str) : mem x l = true <-> In x l.
Proof.
  unfold mem. rewrite existsb_exists. split.
  - intros (y & Hy & E). apply eqb_eq in E. subst; exact Hy.
  - intros H. exists x. split; [exact H | apply eqb_refl].
Qed.

Lemma mem_not_In (x : str) (l : list str) : mem x l = false <-> ~ In x l.
Proof.
  rewrite <- mem_In. destruct (mem x l); split; congruence.
Qed.

(** The first piece of a split is what stands before the separator. *)
Lemma split_before (sep : N) (s : str) :
  exists rest, split sep s = before sep s :: rest.
Proof.
  induction s as [|c r [rest IH]]; simpl.
  - exists []; reflexivity.
  - destruct (N.eqb c sep).
    + eexists; reflexivity.
    + rewrite IH. eexists; reflexivity.
Qed.

Lemma comma_not_space (c : N) : isspace c = true -> N.eqb c comma = false.
Proof.
  intros H. apply N.eqb_neq. intros ->. discriminate H.
Qed.

Lemma before_lstrip (s : str) :
  before comma (lstrip s) = lstrip (before comma s).
Proof.
  induction s as [|c r IH]; simpl; [reflexivity|].
  destruct (isspace c) eqn:Hc.
  - rewrite (comma_not_space _ Hc). simpl. rewrite Hc. exact IH.
  - simpl. destruct (N.eqb c comma); simpl; [reflexivity|].
    rewrite Hc. reflexivity.
Qed.

Lemma rstrip_head (c : N) (r : str) :
  isspace c = false -> exists r', rstrip (c :: r) = c :: r'.
Proof.
  intros Hc. simpl. destruct (rstrip r); [rewrite Hc|]; eexists; reflexivity.
Qed.

Lemma before_cons (sep c : N) (r : str) :
  before sep (c :: r) = if N.eqb c sep then [] else c :: before sep r.
Proof. reflexivity. Qed.

Lemma rstrip_cons (c : N) (r : str) :
  rstrip (c :: r) = match rstrip r with
                    | [] => if isspace c then [] else [c]
                    | r' => c :: r'
                    end.
Proof. reflexivity. Qed.

Lemma rstrip_before (s : str) :
  rstrip (before comma (rstrip s)) = rstrip (before comma s).
Proof.
  induction s as [|c r IH]; [reflexivity|].
  destruct (N.eqb c comma) eqn:Hc.
  - assert (Hs : isspace c = false).
    { apply N.eqb_eq in Hc. subst c. reflexivity. }
    destruct (rstrip_head c r Hs) as [r' ->].
    rewrite !before_cons, Hc. reflexivity.
  - rewrite (before_cons comma c r), Hc.
    rewrite (rstrip_cons c (before comma r)), <- IH.
    rewrite (rstrip_cons c r).
    destruct (rstrip r) as [|y r'] eqn:Hr.
    + destruct (isspace c) eqn:Hs; [reflexivity|].
      rewrite before_cons, Hc. simpl. rewrite Hs. reflexivity.
    + rewrite (before_cons comma c (y :: r')), Hc.
      rewrite rstrip_cons. reflexivity.
Qed.

Lemma lstrip_fixed_head (s : str) :
  lstrip s = s -> s = [] \/ exists c r, s = c :: r /\ isspace c = false.
Proof.
  destruct s as [|c r]; [left; reflexivity|].
  intros H. right. exists c, r. split; [reflexivity|].
  destruct (isspace c) eqn:Hc; [|reflexivity].
  exfalso. simpl in H. rewrite Hc in H.
  assert (L : forall t, List.length (lstrip t) <= List.length t).
  { induction t as [|x t IHt]; simpl; [lia|].
    destruct (isspace x); simpl; lia. }
  specialize (L r). rewrite H in L. simpl in L. lia.
Qed.

Lemma lstrip_idem (s : str) : lstrip (lstrip s) = lstrip s.
Proof.
  induction s as [|c r IH]; simpl; [reflexivity|].
  destruct (isspace c) eqn:Hc; [exact IH|].
  simpl. rewrite Hc. reflexivity.
Qed.

Lemma lstrip_rstrip_fixed (s : str) :
  lstrip s = s -> lstrip (rstrip s) = rstrip s.
Proof.
  intros H. destruct (lstrip_fixed_head _ H) as [-> | (c & r & -> & Hc)];
    [reflexivity|].
  destruct (rstrip_head c r Hc) as [r' ->]. simpl. rewrite Hc. reflexivity.
Qed.

(** Trimming before or after cutting at the first comma gives the same
    trimmed piece. *)
Lemma strip_before_strip (s : str) :
  strip (before comma (strip s)) = strip (before comma s).
Proof.
  unfold strip.
  rewrite <- (before_lstrip (rstrip (lstrip s))).
  rewrite (lstrip_rstrip_fixed _ (lstrip_idem s)).
  rewrite rstrip_before. rewrite before_lstrip. reflexivity.
Qed.

End StringFacts.

(** ** Dictionaries *)

Section DictFacts.

Lemma lookup_setitem_same (key value : str) (d : dict) :
  lookup key (setitem key value d) = Some value.
Proof.
  induction d as [|[k v] d IH]; simpl.
  - rewrite eqb_refl. reflexivity.
  - destruct (eqb k key) eqn:E; simpl; rewrite E; [reflexivity | exact IH].
Qed.

Lemma lookup_setitem_other (key key' value : str) (d : dict) :
  key' <> key -> lookup key' (setitem key value d) = lookup key' d.
Proof.
  intros Hne. induction d as [|[k v] d IH]; simpl.
  - apply not_eq_sym, eqb_neq in Hne. rewrite Hne. reflexivity.
  - destruct (eqb k key) eqn:E; simpl.
    + apply eqb_eq in E. subst k.
      apply not_eq_sym, eqb_neq in Hne. rewrite Hne. reflexivity.
    + rewrite IH. reflexivity.
Qed.

Lemma keys_setitem (key value : str) (d : dict) :
  In key (keys d) -> keys (setitem key value d) = keys d.
Proof.
  induction d as [|[k v] d IH]; simpl; [tauto|].
  intros [-> | H].
  - rewrite eqb_refl. reflexivity.
  - destruct (eqb k key); simpl; [reflexivity|]. rewrite (IH H). reflexivity.
Qed.


End DictFacts.

Ltac lit_neq := let H := fresh in intro H; vm_compute in H; discriminate H.

Ltac in_fieldnames :=
  vm_compute; repeat (first [left; reflexivity | right]).

(** ** The record built by [extract_apartment_details] *)

Section RecordFacts.

Context `{P : Platform}.

(** Every step of the extraction writes under one key only. *)
Lemma extract_title_other soup d k :
  k <> lit "title" -> lookup k (extract_title soup d) = lookup k d.
Proof.
  intros H. unfold extract_title.
  destruct (find _ _ soup); [apply lookup_setitem_other; exact H | reflexivity].
Qed.

Lemma extract_address_other soup d k :
  k <> lit "address" -> lookup k (extract_address soup d) = lookup k d.
Proof.
  intros H. unfold extract_address.
  repeat match goal with
         | |- context [match find ?a ?b ?c with _ => _ end] =>
             destruct (find a b c)
         end;
    solve [reflexivity | apply lookup_setitem_other; exact H].
Qed.

Lemma extract_size_other sc d k :
  k <> lit "size" -> lookup k (extract_size sc d) = lookup k d.
Proof.
  intros H. unfold extract_size.
  destruct (find _ _ sc) as [size_span|]; [|reflexivity].
  destruct (find _ _ size_span) as [inner|]; [|reflexivity].
  destruct (split comma _); [reflexivity|].
  apply lookup_setitem_other; exact H.
Qed.

Lemma extract_rooms_other sc d k :
  k <> lit "rooms" -> lookup k (extract_rooms sc d) = lookup k d.
Proof.
  intros H. unfold extract_rooms.
  destruct (find _ _ sc) as [rooms_span|]; [|reflexivity].
  destruct (find _ _ rooms_span) as [inner|]; [|reflexivity].
  apply lookup_setitem_other; exact H.
Qed.

Lemma extract_stats_other soup d k :
  k <> lit "size" -> k <> lit "rooms" ->
  lookup k (extract_stats soup d) = lookup k d.
Proof.
  intros H1 H2. unfold extract_stats.
  destruct (find _ _ soup) as [sc|]; [|reflexivity].
  rewrite extract_rooms_other, extract_size_other by assumption. reflexivity.
Qed.

Lemma extract_price_other soup d k :
  k <> lit "price" -> lookup k (extract_price soup d) = lookup k d.
Proof.
  intros H. unfold extract_price.
  destruct (find _ _ soup) as [pw|]; [|reflexivity]. cbv zeta.
  destruct (find _ [class_is _] pw) as [value|]; [|reflexivity].
  destruct (find _ [] pw) as [unit_|].
  - destruct (contains _ _); apply lookup_setitem_other; exact H.
  - apply lookup_setitem_other; exact H.
Qed.

Lemma extract_description_other soup d k :
  k <> lit "description" ->
  lookup k (extract_description soup d) = lookup k d.
Proof.
  intros H. unfold extract_description.
  destruct (find _ _ soup); apply lookup_setitem_other; exact H.
Qed.

(** No step adds or moves a key of a record that has the eight fields. *)
Lemma extract_fields_keys soup d :
  keys d = fieldnames -> keys (extract_fields soup d) = fieldnames.
Proof.
  intros H. unfold extract_fields.
  assert (T : keys (extract_title soup d) = fieldnames).
  { unfold extract_title. destruct (find _ _ soup); [|exact H].
    rewrite keys_setitem; [exact H | rewrite H; in_fieldnames]. }
  assert (A : keys (extract_address soup (extract_title soup d)) = fieldnames).
  { unfold extract_address.
    repeat match goal with
           | |- context [match find ?a ?b ?c with _ => _ end] =>
               destruct (find a b c)
           end; try exact T;
      (rewrite keys_setitem; [exact T | rewrite T; in_fieldnames]). }
  set (d2 := extract_address soup (extract_title soup d)) in *.
  assert (S : keys (extract_stats soup d2) = fieldnames).
  { unfold extract_stats. destruct (find _ _ soup) as [sc|]; [|exact A].
    assert (Z : keys (extract_size sc d2) = fieldnames).
    { unfold extract_size.
      destruct (find _ _ sc) as [size_span|]; [|exact A].
      destruct (find _ _ size_span) as [inner|]; [|exact A].
      destruct (split comma _); [exact A|].
      rewrite keys_setitem; [exact A | rewrite A; in_fieldnames]. }
    unfold extract_rooms.
    destruct (find _ _ sc) as [rooms_span|]; [|exact Z].
    destruct (find _ _ rooms_span) as [inner|]; [|exact Z].
    rewrite keys_setitem; [exact Z | rewrite Z; in_fieldnames]. }
  set (d3 := extract_stats soup d2) in *.
  assert (Pr : keys (extract_price soup d3) = fieldnames).
  { unfold extract_price. destruct (find _ _ soup) as [pw|]; [|exact S].
    cbv zeta.
    destruct (find _ [class_is _] pw) as [value|]; [|exact S].
    destruct (find _ [] pw) as [unit_|]; [destruct (contains _ _)|];
      (rewrite keys_setitem; [exact S | rewrite S; in_fieldnames]). }
  set (d4 := extract_price soup d3) in *.
  unfold extract_description.
  destruct (find _ _ soup);
    (rewrite keys_setitem; [exact Pr | rewrite Pr; in_fieldnames]).
Qed.

Lemma extract_fields_other soup d k :
  k <> lit "title" -> k <> lit "address" -> k <> lit "size" ->
  k <> lit "rooms" -> k <> lit "price" -> k <> lit "description" ->
  lookup k (extract_fields soup d) = lookup k d.
Proof.
  intros. unfold extract_fields.
  rewrite extract_description_other, extract_price_other,
    extract_stats_other, extract_address_other, extract_title_other
    by assumption.
  reflexivity.
Qed.

(** [extract_apartment_details] in terms of what its [try] block loads. *)
Lemma extract_apartment_details_load url w :
  fst (extract_apartment_details url w) =
  match page_of url w with
  | inr soup => extract_fields soup (initial_details url)
  | inl _ => initial_details url
  end.
Proof.
  unfold extract_apartment_details, page_of, load.
  destruct ((response <- fetch url;; lift (BeautifulSoup (response_text response))) w)
    as [[e|soup] w']; simpl; [destruct (is_RequestException e)|]; reflexivity.
Qed.

(** A failed fetch ends the [try] block with its exception. *)
Lemma load_fetch_failure url w e :
  fst (fetch url w) = inl e -> page_of url w = inl e.
Proof.
  unfold page_of, load, bind. destruct (fetch url w) as [[e'|r] w']; simpl.
  - intros [= ->]. reflexivity.
  - discriminate.
Qed.

Lemma record_keys url w :
  keys (fst (extract_apartment_details url w)) = fieldnames.
Proof.
  rewrite extract_apartment_details_load.
  destruct (page_of url w) as [e|soup]; [reflexivity|].
  apply extract_fields_keys. reflexivity.
Qed.

End RecordFacts.

Section RecordClaims.

Context `{P : Platform}.

(** C10: whatever the fetch and the parsing of the page give (a page, a
    transport failure, an HTTP failure, an exception of the parser), the
    record returned by [extract_apartment_details] has exactly the eight
    fields url, title, price, size, rooms, address, description and
    availability, in this order, and its url field is the URL passed in. *)
Theorem record_has_eight_fields (url : str) (w : W) :
  keys (fst (extract_apartment_details url w)) =
    [lit "url"; lit "title"; lit "price"; lit "size"; lit "rooms";
     lit "address"; lit "description"; lit "availability"]
  /\ lookup (lit "url") (fst (extract_apartment_details url w)) = Some url.
Proof.
  split; [apply record_keys|].
  rewrite extract_apartment_details_load.
  destruct (page_of url w) as [e|soup]; [reflexivity|].
  rewrite extract_fields_other by lit_neq. reflexivity.
Qed.

(** C1: when the fetch of a detail URL fails, with a transport error such
    as a timeout or with the error raised for a bad HTTP status such as
    404, [extract_apartment_details] returns the record it started from:
    the url field is the requested URL and every other field holds its
    default.  The function returns a record, not an exception, and leaves
    the world as the failed fetch left it. *)
Theorem fetch_failure_gives_defaults (url : str) (w : W) (e : exn) :
  fst (fetch url w) = inl e ->
  fst (extract_apartment_details url w) =
    [ (lit "url", url);
      (lit "title", lit "Not Found");
      (lit "price", lit "Not Found");
      (lit "size", lit "Not Found");
      (lit "rooms", lit "Not Found");
      (lit "address", lit "Not Found");
      (lit "description", lit "Not Found");
      (lit "availability", lit "Not implemented") ]
  /\ snd (extract_apartment_details url w) = snd (fetch url w).
Proof.
  intros H. split.
  - rewrite extract_apartment_details_load, (load_fetch_failure _ _ _ H).
    reflexivity.
  - unfold extract_apartment_details, bind.
    destruct (fetch url w) as [[e'|r] w']; simpl in *; [|discriminate].
    destruct (is_RequestException e'); reflexivity.
Qed.

(** C4: a detail page that is fetched and parsed and has none of the
    patterns looked for gives the record of defaults: "Not Found" for
    title, price, size, rooms and address, the longer text
    "Description section not found (using generic selector)", which is not
    "Not Found", for the description, and "Not implemented" for the
    availability; the availability is "Not implemented" for every call,
    whatever the page holds. *)
Theorem page_without_patterns (url : str) (w : W) (soup : node) :
  page_of url w = inr soup ->
  find (lit "h2") [class_is (lit "ListingDetails-title")] soup = None ->
  find (lit "span")
       [attr_is (lit "data-testid") (lit "ListingDetailsPage-address")] soup
    = None ->
  find (lit "div") [class_is (lit "ListingDetails-basic")] soup = None ->
  find (lit "div") [class_is (lit "ListingDetails-stats")] soup = None ->
  find (lit "div") [class_is (lit "ListingPriceText__wrapper")] soup = None ->
  find (lit "div") [class_is (lit "description")] soup = None ->
  fst (extract_apartment_details url w) =
    [ (lit "url", url);
      (lit "title", lit "Not Found");
      (lit "price", lit "Not Found");
      (lit "size", lit "Not Found");
      (lit "rooms", lit "Not Found");
      (lit "address", lit "Not Found");
      (lit "description",
       lit "Description section not found (using generic selector)");
      (lit "availability", lit "Not implemented") ]
  /\ lit "Description section not found (using generic selector)"
     <> lit "Not Found"
  /\ (forall url' w',
         lookup (lit "availability")
                (fst (extract_apartment_details url' w'))
         = Some (lit "Not implemented")).
Proof.
  intros Hpage Ht Ha Hb Hs Hp Hd. split; [|split].
  - rewrite extract_apartment_details_load, Hpage.
    unfold extract_fields, extract_title, extract_address, extract_stats,
      extract_price, extract_description.
    rewrite Ht, Ha, Hb, Hs, Hp, Hd. reflexivity.
  - lit_neq.
  - intros url' w'. rewrite extract_apartment_details_load.
    destruct (page_of url' w') as [e|soup']; [reflexivity|].
    rewrite extract_fields_other by lit_neq. reflexivity.
Qed.

(** C6, amended: on a detail page that is fetched and parsed and has a
    price wrapper, (1) when the wrapper holds a value element and the
    first span inside the wrapper, in document order, has a text that
    contains "per month", the price is the trimmed value text, one space
    and the trimmed text of that span; (2) when it holds a value element
    and either no span or a first span without "per month", the price is
    the trimmed value text alone; (3) when it holds no value element, the
    price keeps its default. *)
Theorem price_field (url : str) (w : W) (soup price_wrapper : node) :
  page_of url w = inr soup ->
  find (lit "div") [class_is (lit "ListingPriceText__wrapper")] soup
    = Some price_wrapper ->
  let price := lookup (lit "price") (fst (extract_apartment_details url w)) in
  let value_tag :=
    find (lit "strong") [class_is (lit "ListingPriceText__value")]
         price_wrapper in
  let first_span := find (lit "span") [] price_wrapper in
  (forall value unit_,
      value_tag = Some value -> first_span = Some unit_ ->
      contains (lit "per month") (text unit_) = true ->
      price = Some (strip (text value) ++ space :: strip (text unit_)))
  /\ (forall value,
         value_tag = Some value ->
         (first_span = None
          \/ exists unit_, first_span = Some unit_
                           /\ contains (lit "per month") (text unit_) = false) ->
         price = Some (strip (text value)))
  /\ (value_tag = None -> price = Some (lit "Not Found")).
Proof.
  intros Hpage Hw price value_tag first_span.
  assert (E : price = lookup (lit "price")
                        (extract_price soup
                           (extract_stats soup
                              (extract_address soup
                                 (extract_title soup (initial_details url)))))).
  { subst price. rewrite extract_apartment_details_load, Hpage.
    unfold extract_fields. rewrite extract_description_other by lit_neq.
    reflexivity. }
  assert (D : lookup (lit "price")
                (extract_stats soup
                   (extract_address soup
                      (extract_title soup (initial_details url))))
              = Some (lit "Not Found")).
  { rewrite extract_stats_other, extract_address_other, extract_title_other
      by lit_neq. reflexivity. }
  rewrite E. unfold extract_price. rewrite Hw. cbv zeta.
  fold value_tag first_span.
  split; [|split].
  - intros value unit_ -> -> Hc. rewrite Hc. apply lookup_setitem_same.
  - intros value -> [-> | (unit_ & -> & Hc)].
    + apply lookup_setitem_same.
    + rewrite Hc. apply lookup_setitem_same.
  - intros ->. exact D.
Qed.

(** C7: on a detail page that is fetched and parsed, when the stats
    container holds the size element and the size element holds a span,
    the size field is the trimmed text that stands before the first comma
    of that span's text: "98 m2" (with the superscript two) for
    "98 m2, floor 2". *)
Theorem size_field (url : str) (w : W)
        (soup stats_container size_span inner : node) :
  page_of url w = inr soup ->
  find (lit "div") [class_is (lit "ListingDetails-stats")] soup
    = Some stats_container ->
  find (lit "span") [class_is (lit "ListingDetails-statsElt floor")]
       stats_container = Some size_span ->
  find (lit "span") [] size_span = Some inner ->
  lookup (lit "size") (fst (extract_apartment_details url w))
  = Some (strip (before comma (text inner))).
Proof.
  intros Hpage Hs Hf Hi.
  rewrite extract_apartment_details_load, Hpage. unfold extract_fields.
  rewrite extract_description_other, extract_price_other by lit_neq.
  unfold extract_stats. rewrite Hs.
  rewrite extract_rooms_other by lit_neq.
  unfold extract_size. rewrite Hf, Hi.
  destruct (split_before comma (strip (text inner))) as [rest ->].
  rewrite lookup_setitem_same, strip_before_strip. reflexivity.
Qed.

End RecordClaims.

(** ** Link discovery *)

Section CrawlFacts.

Context `{P : Platform}.

(** Appending the unseen: the result extends the accumulator by the new
    elements of the input, each at the place of its first occurrence. *)
Lemma add_unique_fold (l : list str) :
  forall acc, NoDup acc ->
    exists new,
      fold_left add_unique l acc = acc ++ new
      /\ NoDup (acc ++ new)
      /\ (forall x, In x new <-> In x l /\ ~ In x acc)
      /\ (forall r1 x r2, new = r1 ++ x :: r2 ->
            exists l1 l2, l = l1 ++ x :: l2 /\ ~ In x l1
                          /\ forall y, In y r1 <-> In y l1 /\ ~ In y acc).
Proof.
  induction l as [|a l IH]; intros acc Hnd.
  - exists []. rewrite app_nil_r.
    split; [reflexivity|]. split; [assumption|]. split.
    + intros x. simpl. tauto.
    + intros r1 x r2 H. destruct r1; discriminate H.
  - cbn [fold_left]. unfold add_unique at 2.
    destruct (mem a acc) eqn:Ha.
    + apply mem_In in Ha.
      destruct (IH acc Hnd) as (new & E & N & M & O).
      exists new. split; [assumption|]. split; [assumption|]. split.
      * intros x. rewrite M. simpl. split; [tauto|].
        intros [[-> | Hx] Hn]; [contradiction | tauto].
      * intros r1 x r2 Hs.
        destruct (O r1 x r2 Hs) as (l1 & l2 & -> & Hx & Hy).
        assert (Hxa : x <> a).
        { intros ->. assert (H : In a new) by (rewrite Hs; apply in_elt).
          apply M in H. tauto. }
        exists (a :: l1), l2. split; [reflexivity|]. split.
        -- simpl. intros [? | ?]; [congruence | contradiction].
        -- intros y. rewrite Hy. simpl. split; [tauto|].
           intros [[-> | Hin] Hn]; [contradiction | tauto].
    + apply mem_not_In in Ha.
      assert (Hnd' : NoDup (acc ++ [a])).
      { apply NoDup_app; [assumption | repeat constructor; simpl; tauto |].
        intros x Hx [-> | []]. contradiction. }
      assert (Hacc : forall x, In x (acc ++ [a]) <-> In x acc \/ a = x).
      { intros x. rewrite in_app_iff. simpl. tauto. }
      destruct (IH (acc ++ [a]) Hnd') as (new & E & N & M & O).
      exists (a :: new). rewrite <- app_assoc in E, N. simpl in E, N.
      split; [assumption|]. split; [assumption|]. split.
      * intros x. simpl. rewrite M, Hacc.
        destruct (str_eq_dec a x) as [-> | Hne]; tauto.
      * intros r1 x r2 Hs. destruct r1 as [|b r1]; simpl in Hs.
        -- injection Hs as -> ->. exists [], l. simpl. tauto.
        -- injection Hs as <- Hs.
           destruct (O r1 x r2 Hs) as (l1 & l2 & -> & Hx & Hy).
           assert (Hxa : x <> a).
           { intros ->. assert (H : In a new) by (rewrite Hs; apply in_elt).
             apply M in H. rewrite Hacc in H. tauto. }
           exists (a :: l1), l2. split; [reflexivity|]. split.
           ++ simpl. intros [? | ?]; [congruence | contradiction].
           ++ intros y. simpl. rewrite Hy, Hacc.
              destruct (str_eq_dec a y) as [-> | Hne]; tauto.
Qed.

(** On anchors that all carry an [href], the loop of [crawl] raises
    nothing and appends the unseen resolved URLs. *)
Lemma collect_links_fold (url : str) (links : list node) :
  Forall (fun link => get_attr (lit "href") link <> None) links ->
  forall acc,
    collect_links url links acc =
    (None,
     fold_left add_unique
       (map (urljoin url)
          (filter (startswith listing_prefix)
             (flat_map (fun link => match get_attr (lit "href") link with
                                    | Some href => [href]
                                    | None => []
                                    end) links)))
       acc).
Proof.
  induction 1 as [|link links Hlink _ IH]; intros acc; [reflexivity|].
  cbn [collect_links flat_map].
  destruct (get_attr (lit "href") link) as [href|]; [|congruence].
  cbn [app filter].
  destruct (startswith listing_prefix href); [|apply IH].
  cbn [map fold_left]. unfold add_unique at 2.
  destruct (mem (urljoin url href) acc); apply IH.
Qed.

Lemma find_all_href (soup : node) :
  Forall (fun link => get_attr (lit "href") link <> None)
         (find_all (lit "a") [attr_present (lit "href")] soup).
Proof.
  apply Forall_forall. intros link Hin.
  apply filter_In in Hin. destruct Hin as [_ Hm].
  destruct link as [s|s|name class_ attrs c]; try discriminate Hm.
  simpl in *. apply andb_true_iff in Hm. destruct Hm as [_ Hm].
  rewrite andb_true_r in Hm.
  destruct (lookup (lit "href") attrs); [discriminate | discriminate Hm].
Qed.

(** [crawl] in terms of what its [try] block loads. *)
Lemma crawl_load (url : str) (w : W) :
  crawl url w =
  (match page_of url w with
   | inr soup => fold_left add_unique (resolved url soup) []
   | inl _ => []
   end, snd (load url w)).
Proof.
  unfold crawl, page_of, load, bind, lift, ret.
  destruct (fetch url w) as [[e|response] w']; simpl.
  - destruct (is_RequestException e); reflexivity.
  - destruct (BeautifulSoup (response_text response)) as [e|soup]; simpl.
    + destruct (is_RequestException e); reflexivity.
    + rewrite (collect_links_fold url _ (find_all_href soup)). reflexivity.
Qed.

Lemma load_failure_world (url : str) (w : W) (e : exn) :
  fst (fetch url w) = inl e -> snd (load url w) = snd (fetch url w).
Proof.
  unfold load, bind. destruct (fetch url w) as [[e'|r] w']; simpl;
    [reflexivity | discriminate].
Qed.

Lemma In_resolved (url : str) (soup : node) (x : str) :
  In x (resolved url soup) <->
  exists link href,
    In link (find_all (lit "a") [attr_present (lit "href")] soup)
    /\ get_attr (lit "href") link = Some href
    /\ startswith listing_prefix href = true
    /\ x = urljoin url href.
Proof.
  unfold resolved, anchor_hrefs. rewrite in_map_iff. split.
  - intros (href & <- & Hf). apply filter_In in Hf. destruct Hf as [Hin Hp].
    apply in_flat_map in Hin. destruct Hin as (link & Hl & Hh).
    exists link, href.
    destruct (get_attr (lit "href") link) as [h|]; [|contradiction].
    destruct Hh as [-> | []]. auto.
  - intros (link & href & Hl & Hg & Hp & ->). exists href. split; [reflexivity|].
    apply filter_In. split; [|exact Hp].
    apply in_flat_map. exists link. split; [exact Hl|]. rewrite Hg. left.
    reflexivity.
Qed.

End CrawlFacts.

Section CrawlClaims.

Context `{P : Platform}.

(** C3: on a page that is fetched and parsed, the list returned by
    [crawl] has no repetition: an absolute URL that several anchors
    resolve to is in it exactly once.  It holds the resolved URLs of the
    page and nothing else, in the order in which they are first seen: what
    stands before an entry of the list are the URLs seen before the first
    anchor that resolves to it.  Nothing of an earlier call enters: the
    list is fixed by the anchors of this page. *)
Theorem crawl_unique_first_seen (url : str) (w : W) (soup : node) :
  page_of url w = inr soup ->
  let links := fst (crawl url w) in
  NoDup links
  /\ (forall x, In x (resolved url soup) -> count_occ str_eq_dec links x = 1)
  /\ (forall x, In x links -> In x (resolved url soup))
  /\ (forall earlier x later,
         links = earlier ++ x :: later ->
         exists seen rest,
           resolved url soup = seen ++ x :: rest
           /\ ~ In x seen
           /\ forall y, In y earlier <-> In y seen).
Proof.
  intros Hpage links. subst links. rewrite crawl_load, Hpage. cbn [fst].
  destruct (add_unique_fold (resolved url soup) [] (NoDup_nil _))
    as (new & E & N & M & O).
  simpl in E, N. rewrite E.
  split; [exact N|]. split; [|split].
  - intros x Hx. apply NoDup_count_occ'; [exact N|]. apply M. tauto.
  - intros x Hx. apply M in Hx. tauto.
  - intros earlier x later Hs.
    destruct (O earlier x later Hs) as (l1 & l2 & Hl & Hx & Hy).
    exists l1, l2. split; [exact Hl|]. split; [exact Hx|].
    intros y. rewrite Hy. simpl. tauto.
Qed.

(** C8: on a page that is fetched and parsed, a URL is in the list
    returned by [crawl] exactly when it is [urljoin] of the page URL and
    the href of an anchor of the page whose href begins with
    "/en/furnished-apartment/": hrefs without the prefix give nothing, and
    those with it are resolved against the page URL by the URL join of the
    platform. *)
Theorem crawl_keeps_listing_hrefs (url : str) (w : W) (soup : node) :
  page_of url w = inr soup ->
  forall x,
    In x (fst (crawl url w)) <->
    exists link href,
      In link (find_all (lit "a") [attr_present (lit "href")] soup)
      /\ get_attr (lit "href") link = Some href
      /\ startswith (lit "/en/furnished-apartment/") href = true
      /\ x = urljoin url href.
Proof.
  intros Hpage x. rewrite crawl_load, Hpage. cbn [fst].
  destruct (add_unique_fold (resolved url soup) [] (NoDup_nil _))
    as (new & E & _ & M & _).
  simpl in E. rewrite E, M, In_resolved. simpl. tauto.
Qed.

End CrawlClaims.

(** ** The driver *)

Section DriverFacts.

Context `{P : Platform}.

Lemma iteration_break (st : driver_state) (w : W) :
  fst (iteration st w) = None <->
  fst (crawl (page_url (page_number st)) w) = [].
Proof.
  unfold iteration.
  destruct (crawl (page_url (page_number st)) w) as [[|l ls] w1].
  - simpl. tauto.
  - destruct (extract_all (l :: ls) (all_apartment_details st) w1).
    cbn [fst]. split; intros H; discriminate H.
Qed.

Lemma iteration_break_world (st : driver_state) (w : W) :
  fst (crawl (page_url (page_number st)) w) = [] ->
  iteration st w = (None, snd (crawl (page_url (page_number st)) w)).
Proof.
  unfold iteration.
  destruct (crawl (page_url (page_number st)) w) as [[|l ls] w1]; simpl;
    [reflexivity | discriminate].
Qed.

Lemma iteration_next (st st' : driver_state) (w w' : W) :
  iteration st w = (Some st', w') ->
  page_number st' = (page_number st + 1)%N.
Proof.
  unfold iteration.
  destruct (crawl (page_url (page_number st)) w) as [[|l ls] w1];
    [discriminate|].
  destruct (extract_all (l :: ls) (all_apartment_details st) w1).
  intros H. injection H as <- _. reflexivity.
Qed.

(** Pass [S i] is reached from pass [i] by one more turn. *)
Lemma reach_S (i : nat) :
  forall st w,
    reach (S i) st w =
    match reach i st w with
    | None => None
    | Some (sti, wi) =>
        match iteration sti wi with
        | (None, _) => None
        | (Some st', w') => Some (st', w')
        end
    end.
Proof.
  induction i as [|i IH]; intros st w.
  - simpl. destruct (iteration st w) as [[st'|] w']; reflexivity.
  - change (reach (S (S i)) st w)
      with (match iteration st w with
            | (None, _) => None
            | (Some st', w') => reach (S i) st' w'
            end).
    change (reach (S i) st w)
      with (match iteration st w with
            | (None, _) => None
            | (Some st', w') => reach i st' w'
            end).
    destruct (iteration st w) as [[st'|] w']; [apply IH | reflexivity].
Qed.

Lemma reach_page (i : nat) :
  forall st0 w st wi,
    reach i st0 w = Some (st, wi) ->
    page_number st = (page_number st0 + N.of_nat i)%N.
Proof.
  induction i as [|i IH]; intros st0 w st wi.
  - simpl. intros [= <- _]. lia.
  - simpl. destruct (iteration st0 w) as [[st'|] w'] eqn:E; [|discriminate].
    intros H. rewrite (IH _ _ _ _ H), (iteration_next _ _ _ _ E). lia.
Qed.

(** The loop returns exactly when some pass within the fuel ends in
    [break]. *)
Lemma while_true_reach (fuel : nat) :
  forall st0 w st wf,
    while_true fuel st0 w = Some (st, wf) <->
    exists i wi, i < fuel /\ reach i st0 w = Some (st, wi)
                 /\ iteration st wi = (None, wf).
Proof.
  induction fuel as [|fuel IH]; intros st0 w st wf.
  - simpl. split; [discriminate | intros (i & _ & H & _); lia].
  - simpl. destruct (iteration st0 w) as [[st'|] w'] eqn:E.
    + rewrite IH. split.
      * intros (i & wi & Hi & Hr & Hb). exists (S i), wi.
        split; [lia|]. simpl. rewrite E. auto.
      * intros (i & wi & Hi & Hr & Hb). destruct i as [|i].
        -- simpl in Hr. injection Hr as <- <-. rewrite E in Hb. discriminate.
        -- simpl in Hr. rewrite E in Hr. exists i, wi. split; [lia|]. auto.
    + split.
      * intros [= <- <-]. exists 0, w. split; [lia|]. simpl. auto.
      * intros (i & wi & Hi & Hr & Hb). destruct i as [|i].
        -- simpl in Hr. injection Hr as <- <-. rewrite E in Hb.
           injection Hb as <-. reflexivity.
        -- simpl in Hr. rewrite E in Hr. discriminate.
Qed.





End DriverFacts.

Section DriverClaims.

Context `{P : Platform}.

Lemma reach_earlier (i : nat) :
  forall st0 w st wi,
    reach i st0 w = Some (st, wi) ->
    forall j, j < i ->
      exists stj wj,
        reach j st0 w = Some (stj, wj)
        /\ fst (crawl (page_url (page_number stj)) wj) <> [].
Proof.
  induction i as [|i IH]; intros st0 w st wi Hr j Hj; [lia|].
  rewrite reach_S in Hr.
  destruct (reach i st0 w) as [[sti wi']|] eqn:Ei; [|discriminate].
  destruct (Nat.eq_dec j i) as [-> | Hne].
  - exists sti, wi'. split; [exact Ei|].
    intros Hc. apply iteration_break in Hc.
    destruct (iteration sti wi') as [[st'|] w']; simpl in Hc; discriminate.
  - apply (IH _ _ _ _ Ei). lia.
Qed.

(** C9: when the fetch of a page URL fails, with a transport error or
    with the error raised for a bad HTTP status, [crawl] returns the empty
    list, and nothing but the failed request has happened; it returns a
    list, not an exception.  When the URL is that of the page the driver
    is at, the loop ends in that pass. *)
Theorem crawl_fetch_failure (url : str) (w : W) (e : exn) :
  fst (fetch url w) = inl e ->
  crawl url w = ([], snd (fetch url w))
  /\ (forall st fuel,
         page_url (page_number st) = url ->
         while_true (S fuel) st w = Some (st, snd (fetch url w))).
Proof.
  intros H.
  assert (C : crawl url w = ([], snd (fetch url w))).
  { rewrite crawl_load, (load_fetch_failure _ _ _ H),
      (load_failure_world _ _ _ H). reflexivity. }
  split; [exact C|].
  intros st fuel Hurl. simpl.
  rewrite iteration_break_world; rewrite Hurl, C; reflexivity.
Qed.

(** C2: the loop of the driver starts at page 1; the pass numbered [i]
    (from 0) is at page [i + 1]; a pass is followed by another one exactly
    when [crawl] gave it a list that is not empty, however many passes
    there have been; and the loop returns exactly at the first pass in
    which [crawl] returns the empty list, all the passes before it having
    had links. *)
Theorem loop_stops_at_first_empty_page (w : W) :
  page_number initial_state = 1%N
  /\ reach 0 initial_state w = Some (initial_state, w)
  /\ (forall i st wi,
         reach i initial_state w = Some (st, wi) ->
         page_number st = (1 + N.of_nat i)%N
         /\ (fst (crawl (page_url (page_number st)) wi) = []
             <-> reach (S i) initial_state w = None)
         /\ (forall j, j < i ->
               exists stj wj,
                 reach j initial_state w = Some (stj, wj)
                 /\ fst (crawl (page_url (page_number stj)) wj) <> []))
  /\ (forall fuel st wf,
         while_true fuel initial_state w = Some (st, wf) <->
         exists i wi,
           i < fuel
           /\ reach i initial_state w = Some (st, wi)
           /\ crawl (page_url (page_number st)) wi = ([], wf)).
Proof.
  split; [reflexivity|]. split; [reflexivity|]. split.
  - intros i st wi Hr. split; [|split].
    + rewrite (reach_page _ _ _ _ _ Hr). reflexivity.
    + rewrite reach_S, Hr, <- iteration_break.
      destruct (iteration st wi) as [[st'|] w']; simpl;
        split; intros H; try reflexivity; discriminate H.
    + apply (reach_earlier _ _ _ _ _ Hr).
  - intros fuel st wf. rewrite while_true_reach.
    split; intros (i & wi & Hi & Hr & Hb); exists i, wi;
      (split; [exact Hi|]); (split; [exact Hr|]).
    + assert (E : fst (iteration st wi) = None) by (rewrite Hb; reflexivity).
      apply iteration_break in E.
      rewrite (iteration_break_world _ _ E) in Hb.
      injection Hb as <-.
      destruct (crawl (page_url (page_number st)) wi); simpl in *.
      subst. reflexivity.
    + rewrite iteration_break_world; rewrite Hb; reflexivity.
Qed.


End DriverClaims.

(** ** The claims on the small site *)

Example join_listing_href :
  Site.join (lit "https://site/en/furnished-apartments/berlin/1")
            (lit "/en/furnished-apartment/x")
  = lit "https://site/en/furnished-apartment/x".
Proof. vm_compute. reflexivity. Qed.

Example first_page_is_page_1 : page_url 1 = Site.first_page.
Proof. vm_compute. reflexivity. Qed.

(** A listing answered by 404 and one whose request times out. *)
Lemma fetch_failure_gives_defaults_witness :
  fst (@fetch Site.platform Site.url_b []) = inl (HTTPError 404)
  /\ fst (@fetch Site.platform Site.url_down []) = inl (Timeout (lit "timed out"))
  /\ lookup (lit "title")
            (fst (@extract_apartment_details Site.platform Site.url_b []))
     = Some (lit "Not Found")
  /\ lookup (lit "url")
            (fst (@extract_apartment_details Site.platform Site.url_down []))
     = Some Site.url_down.
Proof.
  assert (Hb : fst (@fetch Site.platform Site.url_b []) = inl (HTTPError 404))
    by (vm_compute; reflexivity).
  assert (Hd : fst (@fetch Site.platform Site.url_down [])
               = inl (Timeout (lit "timed out")))
    by (vm_compute; reflexivity).
  split; [exact Hb|]. split; [exact Hd|]. split.
  - rewrite (proj1 (@fetch_failure_gives_defaults Site.platform Site.url_b []
                      _ Hb)).
    vm_compute. reflexivity.
  - rewrite (proj1 (@fetch_failure_gives_defaults Site.platform Site.url_down
                      [] _ Hd)).
    vm_compute. reflexivity.
Defined.

(** A page that is served and has nothing to extract. *)
Lemma page_without_patterns_witness :
  @page_of Site.platform Site.url_bare [] = inr Site.bare_page
  /\ lookup (lit "description")
            (fst (@extract_apartment_details Site.platform Site.url_bare []))
     = Some (lit "Description section not found (using generic selector)")
  /\ lookup (lit "availability")
            (fst (@extract_apartment_details Site.platform Site.url_a []))
     = Some (lit "Not implemented").
Proof.
  assert (Hp : @page_of Site.platform Site.url_bare [] = inr Site.bare_page)
    by (vm_compute; reflexivity).
  pose proof (@page_without_patterns Site.platform Site.url_bare []
                Site.bare_page Hp
                eq_refl eq_refl eq_refl eq_refl eq_refl eq_refl)
    as (Hrec & _ & Hav).
  split; [exact Hp|]. split.
  - rewrite Hrec. vm_compute. reflexivity.
  - apply Hav.
Defined.

(** The price of listing a: value, space, unit. *)
Lemma price_field_witness :
  @page_of Site.platform Site.url_a [] = inr Site.listing_a
  /\ find (lit "div") [class_is (lit "ListingPriceText__wrapper")]
          Site.listing_a = Some Site.wrapper_a
  /\ lookup (lit "price")
            (fst (@extract_apartment_details Site.platform Site.url_a []))
     = Some (lit "1200 EUR per month").
Proof.
  assert (Hp : @page_of Site.platform Site.url_a [] = inr Site.listing_a)
    by (vm_compute; reflexivity).
  assert (Hw : find (lit "div") [class_is (lit "ListingPriceText__wrapper")]
                    Site.listing_a = Some Site.wrapper_a)
    by (vm_compute; reflexivity).
  split; [exact Hp|]. split; [exact Hw|].
  pose proof (@price_field Site.platform Site.url_a [] Site.listing_a
                Site.wrapper_a Hp Hw) as (H1 & _ & _).
  rewrite (H1 Site.value_a Site.unit_a eq_refl eq_refl eq_refl).
  vm_compute. reflexivity.
Defined.

(** Listing c has a price wrapper with a value element and, next to it, a
    span that reads "per month"; the span that comes first in the wrapper
    reads "from", and the price is the value alone. *)
Lemma price_as_stated_counterexample :
  @page_of Site.platform Site.url_c [] = inr Site.listing_c
  /\ find (lit "div") [class_is (lit "ListingPriceText__wrapper")]
          Site.listing_c = Some Site.wrapper_c
  /\ find (lit "strong") [class_is (lit "ListingPriceText__value")]
          Site.wrapper_c = Some Site.value_c
  /\ In Site.value_c (contents Site.wrapper_c)
  /\ In Site.unit_c (contents Site.wrapper_c)
  /\ matches (lit "span") [] Site.unit_c = true
  /\ contains (lit "per month") (text Site.unit_c) = true
  /\ lookup (lit "price")
            (fst (@extract_apartment_details Site.platform Site.url_c []))
     = Some (lit "1200 EUR")
  /\ lookup (lit "price")
            (fst (@extract_apartment_details Site.platform Site.url_c []))
     <> Some (strip (text Site.value_c)
              ++ space :: strip (text Site.unit_c)).
Proof.
  repeat split; try (vm_compute; reflexivity).
  - right; left; reflexivity.
  - right; right; left; reflexivity.
  - vm_compute. discriminate.
Qed.

(** The size of listing a. *)
Lemma size_field_witness :
  @page_of Site.platform Site.url_a [] = inr Site.listing_a
  /\ text Site.inner_a = (Site.sq_metre ++ lit ", floor 2")%list
  /\ lookup (lit "size")
            (fst (@extract_apartment_details Site.platform Site.url_a []))
     = Some Site.sq_metre.
Proof.
  assert (Hp : @page_of Site.platform Site.url_a [] = inr Site.listing_a)
    by (vm_compute; reflexivity).
  split; [exact Hp|]. split; [vm_compute; reflexivity|].
  rewrite (@size_field Site.platform Site.url_a [] Site.listing_a
             Site.stats_a Site.size_span_a Site.inner_a
             Hp eq_refl eq_refl eq_refl).
  vm_compute. reflexivity.
Defined.

(** The first result page names listing a twice; a later call returns it
    again. *)
Lemma crawl_unique_first_seen_witness :
  @page_of Site.platform Site.first_page [] = inr Site.results_page_1
  /\ @resolved Site.platform Site.first_page Site.results_page_1
     = [Site.url_a; Site.url_b; Site.url_a; Site.url_c]
  /\ NoDup (fst (@crawl Site.platform Site.first_page []))
  /\ count_occ str_eq_dec
               (fst (@crawl Site.platform Site.first_page [])) Site.url_a = 1
  /\ fst (@crawl Site.platform Site.first_page []) =
     [Site.url_a; Site.url_b; Site.url_c]
  /\ fst (@crawl Site.platform Site.first_page
                 (snd (@crawl Site.platform Site.first_page []))) =
     [Site.url_a; Site.url_b; Site.url_c].
Proof.
  assert (Hp : @page_of Site.platform Site.first_page []
               = inr Site.results_page_1)
    by (vm_compute; reflexivity).
  pose proof (@crawl_unique_first_seen Site.platform Site.first_page []
                Site.results_page_1 Hp) as (Hnd & Hc & _ & _).
  split; [exact Hp|]. split; [vm_compute; reflexivity|].
  split; [exact Hnd|]. split.
  - apply Hc. vm_compute. left. reflexivity.
  - split; vm_compute; reflexivity.
Defined.

(** The hrefs of the first result page: only the listing paths are kept,
    each joined to the origin of the page. *)
Lemma crawl_keeps_listing_hrefs_witness :
  @page_of Site.platform Site.first_page [] = inr Site.results_page_1
  /\ In Site.url_c (fst (@crawl Site.platform Site.first_page []))
  /\ ~ In (Site.join Site.first_page (lit "/en/about"))
          (fst (@crawl Site.platform Site.first_page [])).
Proof.
  assert (Hp : @page_of Site.platform Site.first_page []
               = inr Site.results_page_1)
    by (vm_compute; reflexivity).
  pose proof (@crawl_keeps_listing_hrefs Site.platform Site.first_page []
                Site.results_page_1 Hp) as H.
  split; [exact Hp|]. split.
  - apply H.
    exists (Site.a "/en/furnished-apartment/c" "C"),
           (lit "/en/furnished-apartment/c").
    split; [vm_compute; tauto|]. split; [reflexivity|].
    split; vm_compute; reflexivity.
  - vm_compute. intuition discriminate.
Defined.

(** With the network down the first page gives no link, and the loop
    ends in its first pass. *)
Lemma crawl_fetch_failure_witness :
  fst (@fetch Site.offline_platform (page_url 1) [])
  = inl (ConnectionError (lit "unreachable"))
  /\ @crawl Site.offline_platform (page_url 1) [] = ([], [page_url 1])
  /\ @while_true Site.offline_platform 1 initial_state []
     = Some (initial_state, [page_url 1]).
Proof.
  assert (Hf : fst (@fetch Site.offline_platform (page_url 1) [])
               = inl (ConnectionError (lit "unreachable")))
    by reflexivity.
  pose proof (@crawl_fetch_failure Site.offline_platform (page_url 1) [] _ Hf)
    as (Hc & Hl).
  split; [exact Hf|]. split; [exact Hc|].
  exact (Hl initial_state 0 eq_refl).
Defined.

(** On the small site the third pass is never reached: page 1 has links,
    page 2 has none, and the loop returns there. *)
Lemma loop_stops_at_first_empty_page_witness :
  @reach Site.platform 1 initial_state []
  = Some (Site.final_state, tl Site.final_world)
  /\ page_number Site.final_state = 2%N
  /\ @reach Site.platform 2 initial_state [] = None
  /\ @while_true Site.platform 5 initial_state []
     = Some (Site.final_state, Site.final_world).
Proof.
  assert (Hr : @reach Site.platform 1 initial_state []
               = Some (Site.final_state, tl Site.final_world))
    by (vm_compute; reflexivity).
  pose proof (@loop_stops_at_first_empty_page Site.platform [])
    as (_ & _ & Hpass & Hloop).
  destruct (Hpass 1 _ _ Hr) as (Hpage & Hstop & _).
  split; [exact Hr|]. split; [exact Hpage|]. split.
  - apply Hstop. vm_compute. reflexivity.
  - apply Hloop. exists 1, (tl Site.final_world).
    split; [lia|]. split; [exact Hr|]. vm_compute. reflexivity.
Defined.


(** No ceiling: on a site whose result pages all list a flat the loop
    does not return, whatever the number of passes allowed. *)
Lemma endless_crawl (n : N) (w : list str) :
  fst (@crawl Site.endless_platform (page_url n) w)
  = [Site.url_a; Site.url_b; Site.url_c].
Proof.
  rewrite crawl_load.
  assert (Hp : @page_of Site.endless_platform (page_url n) w
               = inr Site.results_page_1).
  { unfold page_of, load, fetch, bind, lift, ret.
    cbn [requests_get Site.endless_platform].
    unfold page_url, base_url_head. vm_compute. reflexivity. }
  rewrite Hp. vm_compute. reflexivity.
Qed.

Lemma endless_site_never_returns (fuel : nat) :
  forall st w, @while_true Site.endless_platform fuel st w = None.
Proof.
  induction fuel as [|fuel IH]; intros st w; [reflexivity|].
  cbn [while_true]. unfold iteration.
  pose proof (endless_crawl (page_number st) w) as Hc.
  destruct (@crawl Site.endless_platform (page_url (page_number st)) w)
    as [links w1].
  cbn [fst] in Hc. subst links.
  destruct (@extract_all Site.endless_platform _ _ w1). apply IH.
Qed.

(** * Further properties of the two modules *)

(** ** More on strings *)

Section MoreStringFacts.

Lemma lstrip_In (s : str) (c : N) : In c (lstrip s) -> In c s.
Proof.
  induction s as [|x s IH]; simpl; [tauto|].
  destruct (isspace x); simpl; tauto.
Qed.

Lemma rstrip_In (s : str) (c : N) : In c (rstrip s) -> In c s.
Proof.
  induction s as [|x s IH]; [tauto|].
  rewrite rstrip_cons. destruct (rstrip s) as [|y r'].
  - destruct (isspace x); simpl; tauto.
  - simpl in *. tauto.
Qed.

Lemma strip_In (s : str) (c : N) : In c (strip s) -> In c s.
Proof. intros H. apply lstrip_In, rstrip_In, H. Qed.

Lemma before_no_sep (sep : N) (s : str) : ~ In sep (before sep s).
Proof.
  induction s as [|x s IH]; simpl; [tauto|].
  destruct (N.eqb x sep) eqn:E; simpl; [tauto|].
  apply N.eqb_neq in E. tauto.
Qed.

Lemma lit_injective (a b : string) : lit a = lit b -> a = b.
Proof.
  unfold lit. revert b. induction a as [|x a IH]; intros [|y b]; simpl;
    try discriminate; [reflexivity|].
  intros H. injection H as Hxy Hab.
  f_equal; [|apply IH, Hab].
  rewrite <- (ascii_N_embedding x), <- (ascii_N_embedding y), Hxy.
  reflexivity.
Qed.

Lemma of_N_injective (n m : N) : of_N n = of_N m -> n = m.
Proof.
  unfold of_N. intros H. apply lit_injective in H.
  assert (E : N.to_uint n = N.to_uint m).
  { assert (S : Some (N.to_uint n) = Some (N.to_uint m)).
    { rewrite <- !NilEmpty.usu, H. reflexivity. }
    injection S as S. exact S. }
  rewrite <- (DecimalN.Unsigned.of_to n), <- (DecimalN.Unsigned.of_to m), E.
  reflexivity.
Qed.

End MoreStringFacts.

(** ** More on the record *)

Section MoreRecordFacts.

Context `{P : Platform}.

Lemma record_url (url : str) (w : W) :
  lookup (lit "url") (fst (extract_apartment_details url w)) = Some url.
Proof.
  rewrite extract_apartment_details_load.
  destruct (page_of url w) as [e|soup]; [reflexivity|].
  rewrite extract_fields_other by lit_neq. reflexivity.
Qed.

Lemma load_world (url : str) (w : W) :
  snd (load url w) = snd (requests_get url w).
Proof.
  unfold load, fetch, bind, lift, ret, raise.
  destruct (requests_get url w) as [[e|response] w']; [reflexivity|].
  destruct (raise_for_status response); reflexivity.
Qed.

Lemma load_parse_failure (url : str) (w w' : W) (response : Response)
      (e : exn) :
  fetch url w = (inr response, w') ->
  BeautifulSoup (response_text response) = inl e ->
  page_of url w = inl e.
Proof.
  intros Hf Hp. unfold page_of, load, bind, lift. rewrite Hf, Hp. reflexivity.
Qed.

(** The title is the trimmed text of the first [h2] of class
    [ListingDetails-title]; without one it keeps its default. *)
Theorem title_field (url : str) (w : W) (soup : node) :
  page_of url w = inr soup ->
  let title := lookup (lit "title") (fst (extract_apartment_details url w)) in
  let title_tag :=
    find (lit "h2") [class_is (lit "ListingDetails-title")] soup in
  (forall tag, title_tag = Some tag -> title = Some (strip (text tag)))
  /\ (title_tag = None -> title = Some (lit "Not Found")).
Proof.
  intros Hpage title title_tag. subst title.
  rewrite extract_apartment_details_load, Hpage. unfold extract_fields.
  rewrite extract_description_other, extract_price_other,
    extract_stats_other, extract_address_other by lit_neq.
  unfold extract_title. fold title_tag. split.
  - intros tag ->. apply lookup_setitem_same.
  - intros ->. reflexivity.
Qed.

(** The address: the element with the test id wins whatever else the
    page holds; without it the first span of the [ListingDetails-basic]
    block is taken and marked " (fallback)"; without either the address
    keeps its default. *)
Theorem address_field (url : str) (w : W) (soup : node) :
  page_of url w = inr soup ->
  let address :=
    lookup (lit "address") (fst (extract_apartment_details url w)) in
  let address_tag :=
    find (lit "span")
         [attr_is (lit "data-testid") (lit "ListingDetailsPage-address")]
         soup in
  let basic_div :=
    find (lit "div") [class_is (lit "ListingDetails-basic")] soup in
  (forall tag, address_tag = Some tag -> address = Some (strip (text tag)))
  /\ (forall div span,
         address_tag = None -> basic_div = Some div ->
         find (lit "span") [] div = Some span ->
         address = Some (strip (text span) ++ lit " (fallback)"))
  /\ (address_tag = None ->
      (basic_div = None
       \/ exists div, basic_div = Some div /\ find (lit "span") [] div = None)
      -> address = Some (lit "Not Found")).
Proof.
  intros Hpage address address_tag basic_div. subst address.
  rewrite extract_apartment_details_load, Hpage. unfold extract_fields.
  rewrite extract_description_other, extract_price_other,
    extract_stats_other by lit_neq.
  assert (D : lookup (lit "address") (extract_title soup (initial_details url))
              = Some (lit "Not Found")).
  { rewrite extract_title_other by lit_neq. reflexivity. }
  unfold extract_address. fold address_tag basic_div.
  split; [|split].
  - intros tag ->. apply lookup_setitem_same.
  - intros div span -> -> ->. apply lookup_setitem_same.
  - intros -> [-> | (div & -> & ->)]; exact D.
Qed.

(** The rooms field is the trimmed text of the first span inside the
    rooms element of the stats container. *)
Theorem rooms_field (url : str) (w : W)
        (soup stats_container rooms_span inner : node) :
  page_of url w = inr soup ->
  find (lit "div") [class_is (lit "ListingDetails-stats")] soup
    = Some stats_container ->
  find (lit "span") [class_is (lit "ListingDetails-statsElt rooms")]
       stats_container = Some rooms_span ->
  find (lit "span") [] rooms_span = Some inner ->
  lookup (lit "rooms") (fst (extract_apartment_details url w))
  = Some (strip (text inner)).
Proof.
  intros Hpage Hs Hr Hi.
  rewrite extract_apartment_details_load, Hpage. unfold extract_fields.
  rewrite extract_description_other, extract_price_other by lit_neq.
  unfold extract_stats. rewrite Hs. unfold extract_rooms. rewrite Hr, Hi.
  apply lookup_setitem_same.
Qed.

(** Size and rooms are looked for inside the stats container only: on a
    page without the container both keep their default, whatever elements
    of the size or rooms class the page holds elsewhere. *)
Theorem stats_need_container (url : str) (w : W) (soup : node) :
  page_of url w = inr soup ->
  find (lit "div") [class_is (lit "ListingDetails-stats")] soup = None ->
  lookup (lit "size") (fst (extract_apartment_details url w))
  = Some (lit "Not Found")
  /\ lookup (lit "rooms") (fst (extract_apartment_details url w))
     = Some (lit "Not Found").
Proof.
  intros Hpage Hs.
  rewrite extract_apartment_details_load, Hpage. unfold extract_fields.
  split; rewrite extract_description_other, extract_price_other by lit_neq;
    unfold extract_stats; rewrite Hs;
    rewrite extract_address_other, extract_title_other by lit_neq;
    reflexivity.
Qed.

(** The description of a parsed page is the trimmed text of the first
    [div] of class [description], and the long fallback text without one:
    after a successful parse it is set either way. *)
Theorem description_field (url : str) (w : W) (soup : node) :
  page_of url w = inr soup ->
  let description :=
    lookup (lit "description") (fst (extract_apartment_details url w)) in
  let desc_tag := find (lit "div") [class_is (lit "description")] soup in
  (forall tag, desc_tag = Some tag -> description = Some (strip (text tag)))
  /\ (desc_tag = None ->
      description
      = Some (lit "Description section not found (using generic selector)")).
Proof.
  intros Hpage description desc_tag. subst description.
  rewrite extract_apartment_details_load, Hpage. unfold extract_fields.
  unfold extract_description. fold desc_tag. split.
  - intros tag ->. apply lookup_setitem_same.
  - intros ->. apply lookup_setitem_same.
Qed.

(** The size field never holds a comma, whatever the page. *)
Theorem size_has_no_comma (url : str) (w : W) (size : str) :
  lookup (lit "size") (fst (extract_apartment_details url w)) = Some size ->
  ~ In comma size.
Proof.
  rewrite extract_apartment_details_load.
  assert (D : forall s, Some (lit "Not Found") = Some s -> ~ In comma s).
  { intros s [= <-]. vm_compute. intuition discriminate. }
  destruct (page_of url w) as [e|soup]; [apply D|].
  unfold extract_fields.
  rewrite extract_description_other, extract_price_other by lit_neq.
  set (d2 := extract_address soup (extract_title soup (initial_details url))).
  assert (D2 : lookup (lit "size") d2 = Some (lit "Not Found")).
  { subst d2. rewrite extract_address_other, extract_title_other by lit_neq.
    reflexivity. }
  unfold extract_stats.
  destruct (find _ _ soup) as [sc|]; [|rewrite D2; apply D].
  rewrite extract_rooms_other by lit_neq. unfold extract_size.
  destruct (find _ _ sc) as [size_span|]; [|rewrite D2; apply D].
  destruct (find _ _ size_span) as [inner|]; [|rewrite D2; apply D].
  destruct (split_before comma (strip (text inner))) as [rest ->].
  rewrite lookup_setitem_same. intros [= <-] Hin.
  apply strip_In in Hin. exact (before_no_sep _ _ Hin).
Qed.

(** A page that is served but that the parser rejects gives the record of
    the initial defaults, and one request is all that happened. *)
Theorem extract_parse_failure (url : str) (w w' : W) (response : Response)
        (e : exn) :
  fetch url w = (inr response, w') ->
  BeautifulSoup (response_text response) = inl e ->
  extract_apartment_details url w = (initial_details url, w').
Proof.
  intros Hf Hp. unfold extract_apartment_details, bind, lift.
  rewrite Hf, Hp. destruct (is_RequestException e); reflexivity.
Qed.

(** One call of [extract_apartment_details] makes one request and nothing
    else to the world: no retry, whatever the outcome. *)
Theorem extract_one_request (url : str) (w : W) :
  snd (extract_apartment_details url w) = snd (requests_get url w).
Proof.
  rewrite <- load_world.
  unfold extract_apartment_details, load.
  destruct ((response <- fetch url;;
             lift (BeautifulSoup (response_text response))) w)
    as [[e|soup] w']; simpl; [destruct (is_RequestException e)|]; reflexivity.
Qed.

End MoreRecordFacts.

(** ** More on link discovery *)

Section MoreCrawlFacts.

Context `{P : Platform}.

Lemma add_unique_fold_length (l : list str) :
  forall acc,
    List.length (fold_left add_unique l acc)
    <= List.length acc + List.length l.
Proof.
  induction l as [|a l IH]; intros acc; simpl; [lia|].
  unfold add_unique at 2. destruct (mem a acc).
  - specialize (IH acc). lia.
  - specialize (IH (acc ++ [a])). rewrite length_app in IH. simpl in IH. lia.
Qed.

Lemma anchor_hrefs_length (soup : node) :
  List.length (anchor_hrefs soup)
  <= List.length (find_all (lit "a") [attr_present (lit "href")] soup).
Proof.
  unfold anchor_hrefs.
  induction (find_all (lit "a") [attr_present (lit "href")] soup)
    as [|link links IH]; simpl; [lia|].
  rewrite length_app. destruct (get_attr (lit "href") link); simpl; lia.
Qed.

Lemma fold_add_unique_nil (l : list str) :
  fold_left add_unique l [] = [] <-> l = [].
Proof.
  destruct (add_unique_fold l [] (NoDup_nil _)) as (new & E & _ & M & _).
  simpl in E. rewrite E. split.
  - intros ->. destruct l as [|x l]; [reflexivity|].
    destruct (proj2 (M x) (conj (or_introl eq_refl) (fun F => F))).
  - intros ->. destruct new as [|x new]; [reflexivity|].
    destruct (proj1 (M x) (or_introl eq_refl)) as [[] _].
Qed.

(** One call of [crawl] makes one request and nothing else to the world:
    no retry, whatever the outcome. *)
Theorem crawl_one_request (url : str) (w : W) :
  snd (crawl url w) = snd (requests_get url w).
Proof.
  rewrite crawl_load. cbn [snd]. apply load_world.
Qed.

(** A result page that is served but that the parser rejects gives no
    link. *)
Theorem crawl_parse_failure (url : str) (w w' : W) (response : Response)
        (e : exn) :
  fetch url w = (inr response, w') ->
  BeautifulSoup (response_text response) = inl e ->
  crawl url w = ([], w').
Proof.
  intros Hf Hp. unfold crawl, bind, lift.
  rewrite Hf, Hp. destruct (is_RequestException e); reflexivity.
Qed.

(** On a parsed page [crawl] returns the empty list exactly when no
    anchor has an href that begins with the listing prefix; the driver's
    loop then ends in that pass. *)
Theorem crawl_empty_iff (url : str) (w : W) (soup : node) :
  page_of url w = inr soup ->
  (fst (crawl url w) = [] <->
   forall href, In href (anchor_hrefs soup) ->
                startswith (lit "/en/furnished-apartment/") href = false)
  /\ (fst (crawl url w) = [] ->
      forall st fuel,
        page_url (page_number st) = url ->
        while_true (S fuel) st w = Some (st, snd (requests_get url w))).
Proof.
  intros Hpage. split.
  - rewrite crawl_load, Hpage. cbn [fst].
    rewrite fold_add_unique_nil. unfold resolved.
    fold listing_prefix. split.
    + intros H href Hin.
      destruct (startswith listing_prefix href) eqn:E; [|reflexivity].
      apply map_eq_nil in H.
      assert (Hf : In href (filter (startswith listing_prefix)
                              (anchor_hrefs soup)))
        by (apply filter_In; auto).
      rewrite H in Hf. destruct Hf.
    + intros H.
      destruct (filter (startswith listing_prefix) (anchor_hrefs soup))
        as [|x l] eqn:E; [reflexivity|].
      assert (Hf : In x (filter (startswith listing_prefix)
                           (anchor_hrefs soup)))
        by (rewrite E; left; reflexivity).
      apply filter_In in Hf. destruct Hf as [Hin Hs].
      rewrite (H x Hin) in Hs. discriminate Hs.
  - intros Hempty st fuel Hurl. cbn [while_true].
    rewrite iteration_break_world; rewrite Hurl; [|exact Hempty].
    rewrite crawl_load. cbn [snd]. rewrite load_world. reflexivity.
Qed.

(** [crawl] returns at most one link for each anchor of the page. *)
Theorem crawl_length_bound (url : str) (w : W) (soup : node) :
  page_of url w = inr soup ->
  List.length (fst (crawl url w))
  <= List.length (find_all (lit "a") [attr_present (lit "href")] soup).
Proof.
  intros Hpage. rewrite crawl_load, Hpage. cbn [fst].
  pose proof (add_unique_fold_length (resolved url soup) []) as H1.
  pose proof (anchor_hrefs_length soup) as H2.
  pose proof (filter_length_le (startswith listing_prefix)
                (anchor_hrefs soup)) as H3.
  unfold resolved in *. rewrite length_map in H1.
  change (List.length (@nil str)) with 0 in H1. lia.
Qed.

End MoreCrawlFacts.

(** ** More on the driver *)

Section MoreDriverFacts.

Context `{P : Platform}.

Lemma record_nonempty (url : str) (w : W) :
  nonempty (fst (extract_apartment_details url w)) = true.
Proof.
  pose proof (record_keys url w) as H.
  destruct (fst (extract_apartment_details url w)); [discriminate H|].
  reflexivity.
Qed.

Lemma extract_all_appends (links : list str) :
  forall acc w,
    exists new,
      fst (extract_all links acc w) = acc ++ new
      /\ map (lookup (lit "url")) new = map Some links.
Proof.
  induction links as [|link links IH]; intros acc w.
  - exists []. simpl. rewrite app_nil_r. auto.
  - cbn [extract_all].
    pose proof (record_nonempty link w) as Hn.
    pose proof (record_url link w) as Hu.
    destruct (extract_apartment_details link w) as [details w1].
    cbn [fst] in Hn, Hu. rewrite Hn.
    destruct (IH (acc ++ [details]) w1) as (new & E & M).
    exists (details :: new). rewrite E, <- app_assoc. simpl.
    rewrite Hu, M. auto.
Qed.

Lemma iteration_appends (st st' : driver_state) (w w' : W) :
  iteration st w = (Some st', w') ->
  exists new,
    all_apartment_details st' = all_apartment_details st ++ new
    /\ map (lookup (lit "url")) new
       = map Some (fst (crawl (page_url (page_number st)) w)).
Proof.
  unfold iteration.
  destruct (crawl (page_url (page_number st)) w) as [[|l ls] w1];
    [discriminate|].
  destruct (extract_all_appends (l :: ls) (all_apartment_details st) w1)
    as (new & E & M).
  destruct (extract_all (l :: ls) (all_apartment_details st) w1) as [acc w2].
  intros H. injection H as <- _. exists new. auto.
Qed.

(** The loop over the links of a page adds one record for each link, in
    the order of the links, after the records it was given; the url field
    of each is its link. *)
Theorem extract_all_one_per_link (links : list str) (acc : list dict)
        (w : W) :
  exists new,
    fst (extract_all links acc w) = acc ++ new
    /\ List.length new = List.length links
    /\ map (lookup (lit "url")) new = map Some links.
Proof.
  destruct (extract_all_appends links acc w) as (new & E & M).
  exists new. split; [exact E|]. split; [|exact M].
  transitivity (List.length (map (lookup (lit "url")) new));
    [symmetry; apply length_map | rewrite M; apply length_map].
Qed.

(** A pass that does not end the loop moves to the next page and adds,
    after the records collected so far, one record for each link [crawl]
    returned for the page, in the order of the links. *)
Theorem pass_appends_links (st st' : driver_state) (w w' : W) :
  iteration st w = (Some st', w') ->
  page_number st' = (page_number st + 1)%N
  /\ exists new,
       all_apartment_details st' = all_apartment_details st ++ new
       /\ map (lookup (lit "url")) new
          = map Some (fst (crawl (page_url (page_number st)) w)).
Proof.
  intros H. split; [exact (iteration_next _ _ _ _ H)|].
  exact (iteration_appends _ _ _ _ H).
Qed.

(** The records collected are never dropped or changed: what the loop
    holds at a later pass begins with what it held before. *)
Theorem records_only_grow (i : nat) :
  forall st0 w st wi,
    reach i st0 w = Some (st, wi) ->
    exists new,
      all_apartment_details st = all_apartment_details st0 ++ new.
Proof.
  induction i as [|i IH]; intros st0 w st wi.
  - simpl. intros [= <- _]. exists []. rewrite app_nil_r. reflexivity.
  - simpl. destruct (iteration st0 w) as [[st1|] w1] eqn:E; [|discriminate].
    intros H. destruct (IH _ _ _ _ H) as (new & ->).
    destruct (iteration_appends _ _ _ _ E) as (new1 & -> & _).
    exists (new1 ++ new). rewrite app_assoc. reflexivity.
Qed.

(** When the output file cannot be opened the run still ends normally:
    no file is written and the records collected are kept. *)
Theorem csv_open_failure (fuel : nat) (w w' : W) (st : driver_state)
        (e : exn) :
  while_true fuel initial_state w = Some (st, w') ->
  all_apartment_details st <> [] ->
  fst (open_w csv_filename w') = Some e ->
  main fuel w
  = Some (all_apartment_details st, None, snd (open_w csv_filename w')).
Proof.
  intros Hloop Hne Hopen. unfold main. rewrite Hloop. unfold save_to_csv.
  destruct (all_apartment_details st) as [|first rest]; [congruence|].
  destruct (open_w csv_filename w') as [[e'|] w'']; [reflexivity|].
  discriminate Hopen.
Qed.


(** Two pages never share a URL: the page number can be read back from
    the URL the driver builds. *)
Theorem page_url_injective (n m : N) : page_url n = page_url m <-> n = m.
Proof.
  split; [|intros ->; reflexivity].
  unfold page_url. intros H.
  apply app_inv_head, app_inv_tail in H. exact (of_N_injective _ _ H).
Qed.

End MoreDriverFacts.

(** ** The further properties on the small site *)

Lemma title_field_witness :
  @page_of Site.platform Site.url_a [] = inr Site.listing_a
  /\ lookup (lit "title")
            (fst (@extract_apartment_details Site.platform Site.url_a []))
     = Some (lit "Bright flat").
Proof.
  assert (Hp : @page_of Site.platform Site.url_a [] = inr Site.listing_a)
    by (vm_compute; reflexivity).
  split; [exact Hp|].
  pose proof (@title_field Site.platform Site.url_a [] Site.listing_a Hp)
    as (H & _).
  rewrite (H (Site.elt "h2" ["ListingDetails-title"%string] []
                [Site.txt "  Bright flat "]) eq_refl).
  vm_compute. reflexivity.
Defined.

Lemma address_field_witness :
  @page_of (Site.page_platform Site.listing_d) Site.url_d []
  = inr Site.listing_d
  /\ lookup (lit "address")
            (fst (@extract_apartment_details
                    (Site.page_platform Site.listing_d) Site.url_d []))
     = Some (lit "Mitte, Berlin (fallback)").
Proof.
  assert (Hp : @page_of (Site.page_platform Site.listing_d) Site.url_d []
               = inr Site.listing_d) by reflexivity.
  split; [exact Hp|].
  pose proof (@address_field (Site.page_platform Site.listing_d) Site.url_d
                [] Site.listing_d Hp) as (_ & H & _).
  rewrite (H Site.basic_d Site.basic_span_d eq_refl eq_refl eq_refl).
  vm_compute. reflexivity.
Defined.

Lemma rooms_field_witness :
  @page_of Site.platform Site.url_a [] = inr Site.listing_a
  /\ lookup (lit "rooms")
            (fst (@extract_apartment_details Site.platform Site.url_a []))
     = Some (lit "3 rooms").
Proof.
  assert (Hp : @page_of Site.platform Site.url_a [] = inr Site.listing_a)
    by (vm_compute; reflexivity).
  split; [exact Hp|].
  rewrite (@rooms_field Site.platform Site.url_a [] Site.listing_a
             Site.stats_a Site.rooms_span_a Site.rooms_inner_a
             Hp eq_refl eq_refl eq_refl).
  vm_compute. reflexivity.
Defined.

(** Listing d has a size element, but no stats container around it. *)
Lemma stats_need_container_witness :
  find (lit "span") [class_is (lit "ListingDetails-statsElt floor")]
       Site.listing_d <> None
  /\ lookup (lit "size")
            (fst (@extract_apartment_details
                    (Site.page_platform Site.listing_d) Site.url_d []))
     = Some (lit "Not Found").
Proof.
  split; [vm_compute; discriminate|].
  exact (proj1 (@stats_need_container (Site.page_platform Site.listing_d)
                  Site.url_d [] Site.listing_d eq_refl eq_refl)).
Defined.

Lemma description_field_witness :
  lookup (lit "description")
         (fst (@extract_apartment_details
                 (Site.page_platform Site.listing_d) Site.url_d []))
  = Some (lit "Quiet.").
Proof.
  pose proof (@description_field (Site.page_platform Site.listing_d)
                Site.url_d [] Site.listing_d eq_refl) as (H & _).
  rewrite (H Site.desc_d eq_refl). vm_compute. reflexivity.
Defined.

Lemma size_has_no_comma_witness :
  lookup (lit "size")
         (fst (@extract_apartment_details Site.platform Site.url_a []))
  = Some Site.sq_metre
  /\ ~ In comma Site.sq_metre.
Proof.
  assert (H : lookup (lit "size")
                (fst (@extract_apartment_details Site.platform Site.url_a []))
              = Some Site.sq_metre) by (vm_compute; reflexivity).
  split; [exact H|].
  exact (@size_has_no_comma Site.platform Site.url_a [] _ H).
Defined.

Lemma extract_parse_failure_witness :
  @extract_apartment_details Site.unparsable_platform Site.url_a []
  = (initial_details Site.url_a, [Site.url_a]).
Proof.
  exact (@extract_parse_failure Site.unparsable_platform Site.url_a []
           [Site.url_a] _ _ eq_refl eq_refl).
Defined.

Lemma crawl_parse_failure_witness :
  @crawl Site.unparsable_platform (page_url 1) [] = ([], [page_url 1]).
Proof.
  exact (@crawl_parse_failure Site.unparsable_platform (page_url 1) []
           [page_url 1] _ _ eq_refl eq_refl).
Defined.

(** The second result page has an anchor, but none of a listing. *)
Lemma crawl_empty_iff_witness :
  @page_of Site.platform (page_url 2) [] = inr Site.results_page_2
  /\ anchor_hrefs Site.results_page_2 = [lit "/en/about"]
  /\ fst (@crawl Site.platform (page_url 2) []) = []
  /\ @while_true Site.platform 1
                 {| page_number := 2; all_apartment_details := [] |} []
     = Some ({| page_number := 2; all_apartment_details := [] |},
             [page_url 2]).
Proof.
  assert (Hp : @page_of Site.platform (page_url 2) []
               = inr Site.results_page_2) by (vm_compute; reflexivity).
  pose proof (@crawl_empty_iff Site.platform (page_url 2) []
                Site.results_page_2 Hp) as (Hiff & Hloop).
  assert (He : fst (@crawl Site.platform (page_url 2) []) = []).
  { apply Hiff. intros href Hin. vm_compute in Hin.
    destruct Hin as [<- | []]. vm_compute. reflexivity. }
  split; [exact Hp|]. split; [vm_compute; reflexivity|]. split; [exact He|].
  exact (Hloop He {| page_number := 2; all_apartment_details := [] |} 0
           eq_refl).
Defined.

Lemma crawl_length_bound_witness :
  @page_of Site.platform Site.first_page [] = inr Site.results_page_1
  /\ List.length (fst (@crawl Site.platform Site.first_page [])) <= 5.
Proof.
  assert (Hp : @page_of Site.platform Site.first_page []
               = inr Site.results_page_1) by (vm_compute; reflexivity).
  split; [exact Hp|].
  exact (@crawl_length_bound Site.platform Site.first_page []
           Site.results_page_1 Hp).
Defined.

Lemma pass_appends_links_witness :
  @iteration Site.platform initial_state []
  = (Some Site.final_state, tl Site.final_world)
  /\ page_number Site.final_state = 2%N
  /\ map (lookup (lit "url")) (all_apartment_details Site.final_state)
     = [Some Site.url_a; Some Site.url_b; Some Site.url_c].
Proof.
  assert (Hi : @iteration Site.platform initial_state []
               = (Some Site.final_state, tl Site.final_world))
    by (vm_compute; reflexivity).
  destruct (@pass_appends_links Site.platform _ _ _ _ Hi) as (Hn & _).
  split; [exact Hi|]. split; [exact Hn|]. vm_compute. reflexivity.
Defined.

(** A pass that starts with one record collected and adds three: the
    first record is still the one the pass started with. *)
Lemma records_only_grow_witness :
  all_apartment_details Site.start_with_record
  = [initial_details Site.url_down]
  /\ @reach Site.platform 1 Site.start_with_record []
     = Some (Site.after_pass, Site.after_pass_world)
  /\ List.length (all_apartment_details Site.after_pass) = 4
  /\ hd_error (all_apartment_details Site.after_pass)
     = Some (initial_details Site.url_down)
  /\ exists new,
       all_apartment_details Site.after_pass
       = all_apartment_details Site.start_with_record ++ new.
Proof.
  assert (Hr : @reach Site.platform 1 Site.start_with_record []
               = Some (Site.after_pass, Site.after_pass_world))
    by (vm_compute; reflexivity).
  pose proof (@records_only_grow Site.platform 1 _ _ _ _ Hr) as Hg.
  split; [reflexivity|]. split; [exact Hr|]. split; [reflexivity|].
  split; [|exact Hg].
  destruct Hg as (new & E). rewrite E. reflexivity.
Defined.

Lemma csv_open_failure_witness :
  @main Site.read_only_platform 5 []
  = Some (all_apartment_details Site.final_state, None, Site.final_world).
Proof.
  assert (Hl : @while_true Site.read_only_platform 5 initial_state []
               = Some (Site.final_state, Site.final_world))
    by (vm_compute; reflexivity).
  refine (@csv_open_failure Site.read_only_platform 5 [] _ _
            (IOError (lit "read-only")) Hl _ eq_refl).
  vm_compute. discriminate.
Defined.


